(** * The text-processing view component [ui/src/App.js]

    A shallow embedding of the component's sentence splitter, of its three
    event handlers and of the view it renders, with the properties its
    specification states about them and further ones the code shows.

    JavaScript strings are modelled by [string]: a sequence of code units.
    The splitter only ever compares a code unit with one of ['.'], ['!'] and
    ['?'], so every other unit, whatever its value, behaves alike. *)

From Stdlib Require Import String Ascii List Bool Arith Lia.
From Stdlib.Init Require Import Byte.
Import ListNotations.
Local Open Scope list_scope.
Local Open Scope string_scope.

Set Implicit Arguments.

(** ** Regular expressions: the fragment the component uses

    A pattern is a sequence of terms; a term is a character class under a
    greedy quantifier.  [/[^.!?]+[.!?]*/] is two such terms. *)

Module Regex.

Record CharacterClass : Type := ClassOf
  { negated : bool;            (* [[^...]] *)
    members : list ascii }.

Inductive Quantifier : Type :=
| Once                          (* no quantifier *)
| ZeroOrMore                    (* [*], greedy *)
| OneOrMore.                    (* [+], greedy *)

Record Term : Type := MkTerm
  { atom : CharacterClass;
    quantifier : Quantifier }.

Definition Pattern : Type := list Term.

(** A code unit is in a class when it is one of the members, or, for a
    negated class, when it is none of them. *)
Definition classMatches (cls : CharacterClass) (c : ascii) : bool :=
  xorb (negated cls) (existsb (Ascii.eqb c) (members cls)).

(** Matchers are written in continuation-passing style, the way the language
    definition gives them: a matcher is handed the input left to read and a
    continuation for what follows it in the pattern, and answers with the
    input left after the whole match, or [None] on failure. *)
Definition Continuation : Type := string -> option string.

(** Greedy repetition of a class: read one more unit first, and fall back
    to the continuation at the current position only when that failed. *)
Fixpoint repeatMatcher (cls : CharacterClass) (s : string) (k : Continuation)
  : option string :=
  match s with
  | String c s' =>
      if classMatches cls c then
        match repeatMatcher cls s' k with
        | Some rest => Some rest
        | None => k s
        end
      else k s
  | EmptyString => k s
  end.

Definition atomMatcher (cls : CharacterClass) (s : string) (k : Continuation)
  : option string :=
  match s with
  | String c s' => if classMatches cls c then k s' else None
  | EmptyString => None
  end.

Definition termMatcher (t : Term) (s : string) (k : Continuation)
  : option string :=
  match quantifier t with
  | Once => atomMatcher (atom t) s k
  | ZeroOrMore => repeatMatcher (atom t) s k
  | OneOrMore => atomMatcher (atom t) s (fun s' => repeatMatcher (atom t) s' k)
  end.

Fixpoint patternMatcher (p : Pattern) (s : string) (k : Continuation)
  : option string :=
  match p with
  | [] => k s
  | t :: p' => termMatcher t s (fun s' => patternMatcher p' s' k)
  end.

(** An anchored match attempt at the start of [s]: the input left after the
    match. *)
Definition matchAt (p : Pattern) (s : string) : option string :=
  patternMatcher p s (fun rest => Some rest).

(** The text of a match that started at [s] and left [rest] unread. *)
Definition matched (s rest : string) : string :=
  substring 0 (String.length s - String.length rest) s.

(** The loop of [String.prototype.match] for a pattern with the [g] flag.
    [s] is the input from [lastIndex] on.  While [skip] code units of an
    earlier match are still to be passed over, [lastIndex] is inside that
    match.  Otherwise a match is attempted here: on failure the search moves
    one unit forward; on success the match is collected and [lastIndex]
    moves to its end, or one unit forward when the match was empty.  The
    search ends once [lastIndex] has passed the end of the input. *)
Fixpoint matchAllFrom (p : Pattern) (s : string) (skip : nat) : list string :=
  match skip with
  | S n =>
      match s with
      | String _ s' => matchAllFrom p s' n
      | EmptyString => []
      end
  | O =>
      match matchAt p s with
      | Some rest =>
          let m := matched s rest in
          m :: match s with
               | String _ s' => matchAllFrom p s' (String.length m - 1)
               | EmptyString => []
               end
      | None =>
          match s with
          | String _ s' => matchAllFrom p s' 0
          | EmptyString => []
          end
      end
  end.

End Regex.

(** ** The component

    Everything below lives inside [function App() { ... }].  The component
    never inspects the leaves of the translation response: it only renders
    them and, in the download, puts them into a template literal, which
    applies the language's [ToString].  Both are taken as they come. *)

Section App.

Context {JsValue : Type}.
Variable ToString : JsValue -> string.

(** *** Sentence splitting *)

(** What [String.prototype.match] returns for a global pattern: [null] when
    nothing matched, the array of all matches otherwise. *)
Inductive MatchResult : Type :=
| JsNull
| JsArray (elements : list string).

Definition String_match (text : string) (p : Regex.Pattern) : MatchResult :=
  match Regex.matchAllFrom p text 0 with
  | [] => JsNull
  | ms => JsArray ms
  end.

(** [result || []]: an array, even an empty one, is truthy; [null] is not. *)
Definition orEmptyArray (r : MatchResult) : list string :=
  match r with
  | JsArray ms => ms
  | JsNull => []
  end.

(** The members of the class [[.!?]]. *)
Definition sentenceEnd : list ascii := ["."%char; "!"%char; "?"%char].

(** [/[^.!?]+[.!?]*/g] *)
Definition sentencePattern : Regex.Pattern :=
  [ Regex.MkTerm (Regex.ClassOf true sentenceEnd) Regex.OneOrMore;
    Regex.MkTerm (Regex.ClassOf false sentenceEnd) Regex.ZeroOrMore ].

(** [const splitIntoSentences = (text) =>
       text.match(/[^.!?]+[.!?]*/g) || [];] *)
Definition splitIntoSentences (text : string) : list string :=
  orEmptyArray (String_match text sentencePattern).

(** *** Data: the responses and the view state *)

Record WordInfo : Type := MkWordInfo
  { word : JsValue;
    freq : JsValue;
    gram_info : JsValue }.

Record TextAnalysis : Type := MkTextAnalysis
  { words_count : JsValue;
    words_info : list WordInfo }.

(** The body of a [/api/v0/translation] response. *)
Record TranslationData : Type := MkTranslationData
  { original_text : JsValue;
    original_text_analysis : TextAnalysis;
    translated_text : JsValue;
    translated_text_analysis : TextAnalysis }.

(** The seven [useState] cells; [None] is [null]. *)
Record AppState : Type := MkAppState
  { inputText : string;
    results : option TranslationData;
    syntaxTree : option string;
    selectedSentence : string;
    sentences : list string;
    loading : bool;
    treeLoading : bool }.

(** [useState] initial values. *)
Definition initialState : AppState :=
  {| inputText := ""; results := None; syntaxTree := None;
     selectedSentence := ""; sentences := []; loading := false;
     treeLoading := false |}.

(** A call of one of the seven state setters. *)
Inductive StateUpdate : Type :=
| SetInputText (v : string)
| SetResults (v : option TranslationData)
| SetSyntaxTree (v : option string)
| SetSelectedSentence (v : string)
| SetSentences (v : list string)
| SetLoading (v : bool)
| SetTreeLoading (v : bool).

Definition applyUpdate (u : StateUpdate) (st : AppState) : AppState :=
  match u with
  | SetInputText v =>
      {| inputText := v; results := results st; syntaxTree := syntaxTree st;
         selectedSentence := selectedSentence st; sentences := sentences st;
         loading := loading st; treeLoading := treeLoading st |}
  | SetResults v =>
      {| inputText := inputText st; results := v; syntaxTree := syntaxTree st;
         selectedSentence := selectedSentence st; sentences := sentences st;
         loading := loading st; treeLoading := treeLoading st |}
  | SetSyntaxTree v =>
      {| inputText := inputText st; results := results st; syntaxTree := v;
         selectedSentence := selectedSentence st; sentences := sentences st;
         loading := loading st; treeLoading := treeLoading st |}
  | SetSelectedSentence v =>
      {| inputText := inputText st; results := results st;
         syntaxTree := syntaxTree st;
         selectedSentence := v; sentences := sentences st;
         loading := loading st; treeLoading := treeLoading st |}
  | SetSentences v =>
      {| inputText := inputText st; results := results st;
         syntaxTree := syntaxTree st;
         selectedSentence := selectedSentence st; sentences := v;
         loading := loading st; treeLoading := treeLoading st |}
  | SetLoading v =>
      {| inputText := inputText st; results := results st;
         syntaxTree := syntaxTree st;
         selectedSentence := selectedSentence st; sentences := sentences st;
         loading := v; treeLoading := treeLoading st |}
  | SetTreeLoading v =>
      {| inputText := inputText st; results := results st;
         syntaxTree := syntaxTree st;
         selectedSentence := selectedSentence st; sentences := sentences st;
         loading := loading st; treeLoading := v |}
  end.

(** *** The outside world: HTTP, the console, the DOM *)

(** [axios] is asked for JSON unless [responseType: "arraybuffer"] is given. *)
Inductive ResponseType : Type :=
| JsonResponse
| ArrayBufferResponse.

Definition ResponseData (rt : ResponseType) : Type :=
  match rt with
  | JsonResponse => TranslationData
  | ArrayBufferResponse => list byte
  end.

(** The request body [{ text: ... }]. *)
Record RequestBody : Type := MkBody { text : string }.

Record Request : Type := MkRequest
  { url : string;
    body : RequestBody;
    responseType : ResponseType }.

Record Response (D : Type) : Type := MkResponse { data : D }.

(** What [axios.post] rejects with: no response at all, or a response whose
    status is outside 200-299. *)
Inductive RequestError : Type :=
| NetworkError
| BadStatus (status : nat).

(** A settled promise. *)
Inductive Settled (D : Type) : Type :=
| Fulfilled (value : D)
| Rejected (reason : RequestError).

Arguments Fulfilled {D} value.
Arguments Rejected {D} reason.

Inductive BlobPart : Type :=
| TextPart (s : string)
| BufferPart (bytes : list byte).

(** [new Blob(parts, { type })] *)
Record Blob : Type := MkBlob
  { blobParts : list BlobPart;
    blobType : string }.

(** The [<a>] element of the download, with the two attributes it is given. *)
Record Anchor : Type := MkAnchor
  { href : string;
    download : string }.

(** The effects a handler can have, indexed by what they give back. *)
Inductive Effect : Type -> Type :=
| PreventDefault : Effect unit
| SetState (u : StateUpdate) : Effect unit
| AxiosPost (rq : Request)
  : Effect (Settled (Response (ResponseData (responseType rq))))
| ConsoleError (message : string) (error : RequestError) : Effect unit
| CreateObjectURL (b : Blob) : Effect string
| CreateElement (tag : string) : Effect unit
| AppendChild (link : Anchor) : Effect unit
| Click (link : Anchor) : Effect unit
| RemoveChild (link : Anchor) : Effect unit.

(** An effect as it appears in the record of a run. *)
Definition Event : Type := { X : Type & Effect X }.

Definition event {X : Type} (e : Effect X) : Event := existT Effect X e.

(** *** Handler programs

    A handler is a tree of effects that ends by returning or by throwing. *)
Inductive Prog (A : Type) : Type :=
| Ret (a : A)
| Throw (error : RequestError)
| Vis (X : Type) (e : Effect X) (k : X -> Prog A).

Arguments Ret {A} a.
Arguments Throw {A} error.
Arguments Vis {A X} e k.

Fixpoint bind {A B : Type} (m : Prog A) (f : A -> Prog B) : Prog B :=
  match m with
  | Ret a => f a
  | Throw error => Throw error
  | Vis e k => Vis e (fun x => bind (k x) f)
  end.

Definition perform {X : Type} (e : Effect X) : Prog X := Vis e Ret.

(** [try { body } catch (error) { handler error }] *)
Fixpoint tryCatch {A : Type} (body : Prog A) (handler : RequestError -> Prog A)
  : Prog A :=
  match body with
  | Ret a => Ret a
  | Throw error => handler error
  | Vis e k => Vis e (fun x => tryCatch (k x) handler)
  end.

(** [try { body } finally { cleanup }]: the cleanup runs on both exits and
    the exit of the body is kept, unless the cleanup itself throws. *)
Fixpoint tryFinally {A : Type} (body : Prog A) (cleanup : Prog unit) : Prog A :=
  match body with
  | Ret a => bind cleanup (fun _ => Ret a)
  | Throw error => bind cleanup (fun _ => Throw error)
  | Vis e k => Vis e (fun x => tryFinally (k x) cleanup)
  end.

Definition tryCatchFinally {A : Type} (body : Prog A)
    (handler : RequestError -> Prog A) (cleanup : Prog unit) : Prog A :=
  tryFinally (tryCatch body handler) cleanup.

(** [await promise]: the value of a fulfilled promise; a rejected one throws. *)
Definition await {D : Type} (p : Prog (Settled D)) : Prog D :=
  bind p (fun settled =>
    match settled with
    | Fulfilled value => Ret value
    | Rejected reason => Throw reason
    end).

Local Notation "x <- m ;; k" := (bind m (fun x => k))
  (at level 61, m at next level, right associativity).
Local Notation "m ;; k" := (bind m (fun _ => k))
  (at level 61, right associativity).

Definition setLoading (v : bool) : Prog unit := perform (SetState (SetLoading v)).
Definition setResults (v : option TranslationData) : Prog unit :=
  perform (SetState (SetResults v)).
Definition setSyntaxTree (v : option string) : Prog unit :=
  perform (SetState (SetSyntaxTree v)).
Definition setSentences (v : list string) : Prog unit :=
  perform (SetState (SetSentences v)).
Definition setTreeLoading (v : bool) : Prog unit :=
  perform (SetState (SetTreeLoading v)).

(** [axios.post(url, body)] and [axios.post(url, body, { responseType })]:
    one request, and the promise of its response. *)
Definition axios_post (u : string) (b : RequestBody) (rt : ResponseType)
  : Prog (Settled (Response (ResponseData rt))) :=
  perform (AxiosPost {| url := u; body := b; responseType := rt |}).

Definition console_error (message : string) (error : RequestError) : Prog unit :=
  perform (ConsoleError message error).

(** *** The handlers

    A handler closes over the state of the render that created it: [r]. *)

(** [!s] for a string: only the empty string is falsy. *)
Definition isFalsy (s : string) : bool :=
  match s with
  | EmptyString => true
  | String _ _ => false
  end.

Definition handleSubmit (r : AppState) : Prog unit :=
  perform PreventDefault ;;
  setLoading true ;;
  setResults None ;;
  setSyntaxTree None ;;
  tryCatchFinally
    (response <- await (axios_post "http://localhost:8000/api/v0/translation"
                          {| text := inputText r |} JsonResponse) ;;
     setResults (Some (data response)) ;;
     let splitSentences := splitIntoSentences (inputText r) in
     setSentences splitSentences)
    (fun error => console_error "Error during API call:" error)
    (setLoading false).

Definition handleGenerateTree (r : AppState) : Prog unit :=
  if isFalsy (selectedSentence r) then Ret tt else
  setTreeLoading true ;;
  setSyntaxTree None ;;
  tryCatchFinally
    (response <- await (axios_post "http://localhost:8000/api/v0/tree"
                          {| text := selectedSentence r |} ArrayBufferResponse) ;;
     let blob := {| blobParts := [BufferPart (data response)];
                    blobType := "image/png" |} in
     objectUrl <- perform (CreateObjectURL blob) ;;
     setSyntaxTree (Some objectUrl))
    (fun error => console_error "Error during tree generation API call:" error)
    (setTreeLoading false).

(** The line feed of ["\n"]. *)
Definition nl : string := String (ascii_of_nat 10) EmptyString.

(** The template literal of both [forEach] bodies. *)
Definition wordLine (info : WordInfo) : string :=
  "  - Word: " ++ ToString (word info) ++
  ", Frequency: " ++ ToString (freq info) ++
  ", Grammatical Info: " ++ ToString (gram_info info) ++ nl.

(** [infos.forEach((info) => { fileContent += `...`; })] *)
Definition forEachWordInfo (infos : list WordInfo) (fileContent : string) : string :=
  fold_left (fun content info => content ++ wordLine info) infos fileContent.

(** The text [handleDownloadResults] accumulates in [fileContent]. *)
Definition fileContentOf (res : TranslationData) : string :=
  let fileContent := "Translation Results" ++ nl ++ nl in
  let fileContent := fileContent ++ (nl ++ "Original Text:" ++ nl) in
  let fileContent := fileContent ++ (ToString (original_text res) ++ nl ++ nl) in
  let fileContent := fileContent ++ ("Original Text Analysis:" ++ nl) in
  let fileContent :=
    fileContent ++
    ("Words Count: " ++ ToString (words_count (original_text_analysis res)) ++ nl) in
  let fileContent := fileContent ++ ("Words Info:" ++ nl) in
  let fileContent :=
    forEachWordInfo (words_info (original_text_analysis res)) fileContent in
  let fileContent := fileContent ++ (nl ++ "Translated Text:" ++ nl) in
  let fileContent := fileContent ++ (ToString (translated_text res) ++ nl ++ nl) in
  let fileContent := fileContent ++ ("Translated Text Analysis:" ++ nl) in
  let fileContent :=
    fileContent ++
    ("Words Count: " ++ ToString (words_count (translated_text_analysis res)) ++ nl) in
  let fileContent := fileContent ++ ("Words Info:" ++ nl) in
  forEachWordInfo (words_info (translated_text_analysis res)) fileContent.

Definition handleDownloadResults (r : AppState) : Prog unit :=
  match results r with
  | None => Ret tt
  | Some res =>
      let fileContent := fileContentOf res in
      let blob := {| blobParts := [TextPart fileContent];
                     blobType := "text/plain;charset=utf-8" |} in
      perform (CreateElement "a") ;;
      objectUrl <- perform (CreateObjectURL blob) ;;
      let link := {| href := objectUrl;
                     download := "translation_results.txt" |} in
      perform (AppendChild link) ;;
      perform (Click link) ;;
      perform (RemoveChild link)
  end.

(** *** Running a handler

    The world settles every request and names every object URL; a run
    threads the state cells through the effects and records them in order.
    A run is one invocation taken on its own: the cells are written by its
    own setter calls only, also while its request is pending. *)
Record World : Type := MkWorld
  { settle : forall rq : Request,
      Settled (Response (ResponseData (responseType rq)));
    objectURL : Blob -> string }.

Definition react {X : Type} (w : World) (e : Effect X) (st : AppState)
  : X * AppState :=
  match e in Effect X0 return X0 * AppState with
  | PreventDefault => (tt, st)
  | SetState u => (tt, applyUpdate u st)
  | AxiosPost rq => (settle w rq, st)
  | ConsoleError _ _ => (tt, st)
  | CreateObjectURL b => (objectURL w b, st)
  | CreateElement _ => (tt, st)
  | AppendChild _ => (tt, st)
  | Click _ => (tt, st)
  | RemoveChild _ => (tt, st)
  end.

Inductive Outcome (A : Type) : Type :=
| Returned (a : A)
| Threw (error : RequestError).

Arguments Returned {A} a.
Arguments Threw {A} error.

Record Run (A : Type) : Type := MkRun
  { final : AppState;
    trace : list Event;
    outcome : Outcome A }.

Fixpoint run {A : Type} (w : World) (st : AppState) (p : Prog A) : Run A :=
  match p with
  | Ret a => {| final := st; trace := []; outcome := Returned a |}
  | Throw error => {| final := st; trace := []; outcome := Threw error |}
  | Vis e k =>
      let (x, st') := react w e st in
      let rest := run w st' (k x) in
      {| final := final rest;
         trace := event e :: trace rest;
         outcome := outcome rest |}
  end.

(** The state cells after the setter calls of a recorded run. *)
Definition replayEvent (st : AppState) (ev : Event) : AppState :=
  match projT2 ev with
  | SetState u => applyUpdate u st
  | _ => st
  end.

Definition replay (events : list Event) (st : AppState) : AppState :=
  fold_left replayEvent events st.

(** The requests of a recorded run, in the order they were sent. *)
Definition requestOf (ev : Event) : list Request :=
  match projT2 ev with
  | AxiosPost rq => [rq]
  | _ => []
  end.

Definition requestsOf (events : list Event) : list Request :=
  flat_map requestOf events.

(** The state cells a recorded run has written to. *)
Definition updateOf (ev : Event) : list StateUpdate :=
  match projT2 ev with
  | SetState u => [u]
  | _ => []
  end.

Definition updatesOf (events : list Event) : list StateUpdate :=
  flat_map updateOf events.

(** The console output of a recorded run. *)
Definition logOf (ev : Event) : list (string * RequestError) :=
  match projT2 ev with
  | ConsoleError message error => [(message, error)]
  | _ => []
  end.

Definition logsOf (events : list Event) : list (string * RequestError) :=
  flat_map logOf events.

(** *** The view

    What the component returns: a tree of elements.  A property of an element
    is a string, a number, a boolean, a style object or an event listener. *)

(** The event a listener is handed; the component reads [e.target.value] and
    nothing else of it. *)
Record DomEvent : Type := MkDomEvent { targetValue : string }.

Inductive PropValue : Type :=
| PString (s : string)
| PNumber (n : nat)
| PBool (b : bool)
| PStyle (declarations : list (string * string))
| PListener (listener : DomEvent -> Prog unit).

#[warnings="-register-all"]
Inductive Node : Type :=
| Empty                                   (* [false], [null]: nothing rendered *)
| TextNode (s : string)
| ValueNode (v : JsValue)                 (* a response leaf in braces *)
| Element (tag : string) (props : list (string * PropValue))
    (children : list Node).

Definition setInputText (v : string) : Prog unit :=
  perform (SetState (SetInputText v)).
Definition setSelectedSentence (v : string) : Prog unit :=
  perform (SetState (SetSelectedSentence v)).

(** [array.map((element, index) => ...)] *)
Fixpoint mapWithIndex {A B : Type} (f : A -> nat -> B) (index : nat)
    (l : list A) : list B :=
  match l with
  | [] => []
  | x :: l' => f x index :: mapWithIndex f (S index) l'
  end.

Definition renderWordsTable (wordsInfo : list WordInfo) : Node :=
  Element "table"
    [("style", PStyle [("borderCollapse", "collapse"); ("width", "100%");
                       ("marginTop", "10px"); ("textAlign", "left");
                       ("fontSize", "14px")])]
    [ Element "thead" []
        [ Element "tr" [("style", PStyle [("borderBottom", "2px solid #ccc")])]
            [ Element "th" [("style", PStyle [("padding", "10px")])]
                [TextNode "Word"];
              Element "th" [("style", PStyle [("padding", "10px")])]
                [TextNode "Frequency"];
              Element "th" [("style", PStyle [("padding", "10px")])]
                [TextNode "Grammatical Info"] ] ];
      Element "tbody" []
        (mapWithIndex
           (fun info index =>
              Element "tr"
                [("key", PNumber index);
                 ("style", PStyle [("borderBottom", "1px solid #eee")])]
                [ Element "td" [("style", PStyle [("padding", "10px")])]
                    [ValueNode (word info)];
                  Element "td" [("style", PStyle [("padding", "10px")])]
                    [ValueNode (freq info)];
                  Element "td" [("style", PStyle [("padding", "10px")])]
                    [ValueNode (gram_info info)] ])
           0 wordsInfo) ].

(** The list of radio buttons, one per sentence. *)
Definition renderSentences (sentenceList : list string) : Node :=
  match sentenceList with
  | [] => Empty                           (* [sentences.length > 0 && ...] *)
  | _ =>
      Element "div" [("style", PStyle [("marginTop", "20px")])]
        [ Element "h3" [] [TextNode "Sentences"];
          Element "ul" []
            (mapWithIndex
               (fun sentence index =>
                  Element "li"
                    [("key", PNumber index);
                     ("style", PStyle [("marginBottom", "5px")])]
                    [ Element "label" []
                        [ Element "input"
                            [("type", PString "radio");
                             ("name", PString "sentence");
                             ("value", PString sentence);
                             ("onChange",
                              PListener (fun _ => setSelectedSentence sentence));
                             ("style", PStyle [("marginRight", "10px")])]
                            [];
                          TextNode sentence ] ])
               0 sentenceList) ]
  end.

(** The [return (...)] of [App], for the state [r] of the render. *)
Definition render (r : AppState) : Node :=
  Element "div"
    [("style", PStyle [("padding", "20px");
                       ("fontFamily", "Arial, sans-serif")])]
    [ Element "h1" [] [TextNode "Text Processing App"];
      Element "form"
        [("onSubmit", PListener (fun _ => handleSubmit r));
         ("style", PStyle [("marginBottom", "20px")])]
        [ Element "textarea"
            [("placeholder", PString "Enter your text here...");
             ("value", PString (inputText r));
             ("onChange", PListener (fun e => setInputText (targetValue e)));
             ("rows", PNumber 5);
             ("cols", PNumber 50);
             ("style", PStyle [("marginBottom", "10px"); ("width", "100%");
                               ("padding", "10px")])]
            [];
          Element "br" [] [];
          Element "button"
            [("type", PString "submit");
             ("style", PStyle [("padding", "10px 20px");
                               ("cursor", "pointer")])]
            [TextNode "Process Text"] ];
      (if loading r then Element "p" [] [TextNode "Processing..."] else Empty);
      match results r with
      | None => Empty
      | Some res =>
          Element "div" []
            [ Element "h2" [] [TextNode "Results"];
              Element "p" []
                [Element "strong" [] [TextNode "Original Text Analysis:"]];
              Element "p" []
                [TextNode "Words Count: ";
                 ValueNode (words_count (original_text_analysis res))];
              renderWordsTable (words_info (original_text_analysis res));
              Element "p" []
                [Element "strong" [] [TextNode "Translated Text:"];
                 TextNode " ";
                 ValueNode (translated_text res)];
              Element "p" []
                [Element "strong" [] [TextNode "Translated Text Analysis:"]];
              Element "p" []
                [TextNode "Words Count: ";
                 ValueNode (words_count (translated_text_analysis res))];
              renderWordsTable (words_info (translated_text_analysis res));
              renderSentences (sentences r);
              Element "button"
                [("onClick", PListener (fun _ => handleDownloadResults r));
                 ("style", PStyle [("padding", "10px 20px");
                                   ("cursor", "pointer");
                                   ("marginTop", "20px");
                                   ("backgroundColor", "#28a745");
                                   ("color", "white");
                                   ("border", "none");
                                   ("borderRadius", "5px")])]
                [TextNode "Download Results"] ]
      end;
      Element "button"
        [("onClick", PListener (fun _ => handleGenerateTree r));
         ("style", PStyle [("padding", "10px 20px");
                           ("cursor", "pointer");
                           ("marginTop", "20px");
                           ("backgroundColor",
                            if isFalsy (selectedSentence r)
                            then "#ccc" else "#007BFF");
                           ("color", "white");
                           ("border", "none");
                           ("borderRadius", "5px")]);
         ("disabled", PBool (isFalsy (selectedSentence r) || treeLoading r))]
        [TextNode (if treeLoading r then "Generating Tree..."
                   else "Generate Syntax Tree")];
      match syntaxTree r with
      | None => Empty
      | Some objectUrl =>
          if isFalsy objectUrl then TextNode objectUrl else
          Element "div" [("style", PStyle [("marginTop", "20px")])]
            [ Element "h2" [] [TextNode "Syntax Tree"];
              Element "img"
                [("src", PString objectUrl);
                 ("alt", PString "Syntax Tree");
                 ("style", PStyle [("maxWidth", "100%");
                                   ("border", "1px solid #ccc");
                                   ("padding", "10px")])]
                [] ]
      end ].

(** *** Reading and using a view *)

(** The elements of a view with a given tag, in document order. *)
Fixpoint elementsByTag (tag : string) (n : Node) : list Node :=
  match n with
  | Element t _ children =>
      ((if String.eqb t tag then [n] else []) ++
       flat_map (elementsByTag tag) children)%list
  | _ => []
  end.

Definition childrenOf (n : Node) : list Node :=
  match n with
  | Element _ _ children => children
  | _ => []
  end.

Definition propsOf (n : Node) : list (string * PropValue) :=
  match n with
  | Element _ props _ => props
  | _ => []
  end.

(** The value of the property [name], when the element has it. *)
Fixpoint propOf (name : string) (props : list (string * PropValue))
  : option PropValue :=
  match props with
  | [] => None
  | (key, value) :: props' =>
      if String.eqb key name then Some value else propOf name props'
  end.

(** The text a view shows; string and number leaves show as [ToString] has
    them. *)
Fixpoint textContent (n : Node) : string :=
  match n with
  | Empty => EmptyString
  | TextNode s => s
  | ValueNode v => ToString v
  | Element _ _ children => fold_right append EmptyString (map textContent children)
  end.

(** A listener a user can reach: the element it sits on, the text of that
    element, and the event it listens to. *)
Record Control : Type := MkControl
  { controlTag : string;
    controlLabel : string;
    controlEvent : string;
    controlListener : DomEvent -> Prog unit }.

Definition isDisabled (props : list (string * PropValue)) : bool :=
  match propOf "disabled" props with
  | Some (PBool true) => true
  | _ => false
  end.

Definition listenersOf (tag label : string) (props : list (string * PropValue))
  : list Control :=
  flat_map
    (fun p =>
       match snd p with
       | PListener listener =>
           [ {| controlTag := tag; controlLabel := label;
                controlEvent := fst p; controlListener := listener |} ]
       | _ => []
       end)
    props.

(** The controls of a view, in document order.  A disabled element fires no
    event. *)
Fixpoint controls (n : Node) : list Control :=
  match n with
  | Element tag props children =>
      ((if isDisabled props then []
        else listenersOf tag (textContent n) props) ++
       flat_map controls children)%list
  | _ => []
  end.

(** One thing a user does: an event on one of the controls of the current
    view, in a world that settles the request it may cause. *)
Record Interaction : Type := MkInteraction
  { target : nat;
    payload : DomEvent;
    world : World }.

(** The listener closes over the state the view was rendered from, and has
    run to its end before the next interaction. *)
Definition interact (st : AppState) (i : Interaction) : AppState :=
  match nth_error (controls (render st)) (target i) with
  | Some c => final (run (world i) st (controlListener c (payload i)))
  | None => st
  end.

(** The state after a sequence of interactions with a freshly mounted
    component. *)
Definition session (interactions : list Interaction) : AppState :=
  fold_left interact interactions initialState.

(** The links of a recorded run that are in the document, event by event:
    [appendChild] puts a link in, [removeChild] takes it out. *)
Definition anchorEqb (a b : Anchor) : bool :=
  String.eqb (href a) (href b) && String.eqb (download a) (download b).

Fixpoint removeLink (link : Anchor) (attached : list Anchor) : list Anchor :=
  match attached with
  | [] => []
  | x :: rest => if anchorEqb x link then rest else x :: removeLink link rest
  end.

Definition documentStep (attached : list Anchor) (ev : Event) : list Anchor :=
  match projT2 ev with
  | AppendChild link => (attached ++ [link])%list
  | RemoveChild link => removeLink link attached
  | _ => attached
  end.

Definition linksAttached (events : list Event) : list Anchor :=
  fold_left documentStep events [].

(** Every click and every removal is on a link that is in the document when
    it happens. *)
Fixpoint usedWhileAttached (attached : list Anchor) (events : list Event)
  : Prop :=
  match events with
  | [] => True
  | ev :: rest =>
      match projT2 ev with
      | Click link => In link attached
      | RemoveChild link => In link attached
      | _ => True
      end /\
      usedWhileAttached (documentStep attached ev) rest
  end.

(** *** Vocabulary of the properties *)

(** One of ['.'], ['!'], ['?']. *)
Definition isSentenceEnd (c : ascii) : bool :=
  existsb (Ascii.eqb c) sentenceEnd.

Definition isClauseChar (c : ascii) : bool := negb (isSentenceEnd c).

Fixpoint allChars (f : ascii -> bool) (s : string) : bool :=
  match s with
  | EmptyString => true
  | String c s' => f c && allChars f s'
  end.

(** The longest prefix of [s] whose units all satisfy [f], and what is left
    of [s] after it. *)
Fixpoint takeLeading (f : ascii -> bool) (s : string) : string :=
  match s with
  | EmptyString => EmptyString
  | String c s' => if f c then String c (takeLeading f s') else EmptyString
  end.

Fixpoint dropLeading (f : ascii -> bool) (s : string) : string :=
  match s with
  | EmptyString => EmptyString
  | String c s' => if f c then dropLeading f s' else s
  end.

Definition startsWith (f : ascii -> bool) (s : string) : bool :=
  match s with
  | EmptyString => false
  | String c _ => f c
  end.

(** What is left after the clause and the sentence ends that follow it. *)
Definition afterSentence (s : string) : string :=
  dropLeading isSentenceEnd (dropLeading isClauseChar s).

(** [sub] occurs in [s] as a contiguous run of units. *)
Definition substringOf (sub s : string) : Prop :=
  exists before after, s = before ++ sub ++ after.

(** One or more units that end no sentence, then zero or more that do. *)
Definition clauseWithEnd (x : string) : Prop :=
  exists clause ending,
    x = clause ++ ending /\
    clause <> EmptyString /\
    allChars isClauseChar clause = true /\
    allChars isSentenceEnd ending = true.

(** [parts.join("")] *)
Definition join (parts : list string) : string :=
  fold_right append EmptyString parts.

(** The two requests of the external interface. *)
Definition apiOrigin : string := "http://localhost:8000".

Definition translationRequest (r : AppState) : Request :=
  {| url := apiOrigin ++ "/api/v0/translation";
     body := {| text := inputText r |};
     responseType := JsonResponse |}.

Definition treeRequest (r : AppState) : Request :=
  {| url := apiOrigin ++ "/api/v0/tree";
     body := {| text := selectedSentence r |};
     responseType := ArrayBufferResponse |}.

(** The line feed, and the text made of given lines, each one closed by a
    line feed. *)
Definition lineFeed : string := String "010"%char EmptyString.

Definition unlines (lines : list string) : string :=
  join (map (fun line => line ++ lineFeed) lines).

(** The lines of a text: what stands before, between and after its line
    feeds. *)
Definition isLineFeed (c : ascii) : bool := Ascii.eqb c "010"%char.

Fixpoint linesOf (s : string) : list string :=
  match s with
  | EmptyString => [EmptyString]
  | String c s' =>
      if isLineFeed c then EmptyString :: linesOf s'
      else match linesOf s' with
           | line :: lines => String c line :: lines
           | [] => [String c EmptyString]
           end
  end.

Definition noLineFeed (s : string) : Prop :=
  allChars (fun c => negb (isLineFeed c)) s = true.

(** The line of the downloaded file for one entry of a word table. *)
Definition entryLine (info : WordInfo) : string :=
  "  - Word: " ++ ToString (word info) ++
  ", Frequency: " ++ ToString (freq info) ++
  ", Grammatical Info: " ++ ToString (gram_info info).

(** The lines of the downloaded file: the title, then the original text with
    its word count and one line per entry of its word table, then the same
    for the translated text. *)
Definition fileLines (res : TranslationData) : list string :=
  ([ "Translation Results";
     "";
     "";
     "Original Text:";
     ToString (original_text res);
     "";
     "Original Text Analysis:";
     ("Words Count: " ++
      ToString (words_count (original_text_analysis res)))%string;
     "Words Info:" ] ++
   map entryLine (words_info (original_text_analysis res)) ++
   [ "";
     "Translated Text:";
     ToString (translated_text res);
     "";
     "Translated Text Analysis:";
     ("Words Count: " ++
      ToString (words_count (translated_text_analysis res)))%string;
     "Words Info:" ] ++
   map entryLine (words_info (translated_text_analysis res)))%list.

(** The file a click on a link has the browser save: the name in the
    link's [download] attribute, and the blob its [href] stands for. *)
Definition savesFile (w : World) (events : list Event)
    (name : string) (content : Blob) : Prop :=
  In (event (Click {| href := objectURL w content; download := name |})) events.

(** A world in which every request is answered, and one in which every
    request fails. *)
Definition answeringWorld (answer : TranslationData) (image : list byte)
  : World :=
  {| settle := fun rq =>
       match responseType rq as rt
             return Settled (Response (ResponseData rt)) with
       | JsonResponse => Fulfilled {| data := answer |}
       | ArrayBufferResponse => Fulfilled {| data := image |}
       end;
     objectURL := fun _ => "blob:http://localhost:3000/0" |}.

Definition failingWorld (reason : RequestError) : World :=
  {| settle := fun _ => Rejected reason;
     objectURL := fun _ => "blob:http://localhost:3000/0" |}.

(** The last unit of [s] satisfies [f]. *)
Fixpoint endsWith (f : ascii -> bool) (s : string) : bool :=
  match s with
  | EmptyString => false
  | String c EmptyString => f c
  | String _ s' => endsWith f s'
  end.

(** The controls of the component by name. *)
Definition submitControl (r : AppState) : Control :=
  {| controlTag := "form"; controlLabel := "Process Text";
     controlEvent := "onSubmit";
     controlListener := fun _ => handleSubmit r |}.

Definition textControl : Control :=
  {| controlTag := "textarea"; controlLabel := EmptyString;
     controlEvent := "onChange";
     controlListener := fun e => setInputText (targetValue e) |}.

Definition radioControl (sentence : string) : Control :=
  {| controlTag := "input"; controlLabel := EmptyString;
     controlEvent := "onChange";
     controlListener := fun _ => setSelectedSentence sentence |}.

Definition downloadControl (r : AppState) : Control :=
  {| controlTag := "button"; controlLabel := "Download Results";
     controlEvent := "onClick";
     controlListener := fun _ => handleDownloadResults r |}.

Definition generateControl (r : AppState) : Control :=
  {| controlTag := "button"; controlLabel := "Generate Syntax Tree";
     controlEvent := "onClick";
     controlListener := fun _ => handleGenerateTree r |}.

(** What every state between two interactions satisfies. *)
Definition settled (st : AppState) : Prop :=
  loading st = false /\
  treeLoading st = false /\
  (exists submitted, sentences st = splitIntoSentences submitted) /\
  (selectedSentence st = EmptyString \/
   exists submitted, In (selectedSentence st) (splitIntoSentences submitted)).

(** How [/[^.!?]+[.!?]*/g] cuts a text: sentence ends in front of a clause
    belong to no match; a clause takes every sentence end that follows it,
    so that what is left starts with the next clause or is empty. *)
Inductive Sentences : string -> list string -> Prop :=
| Sentences_nil : Sentences EmptyString []
| Sentences_skip (c : ascii) (s : string) (l : list string) :
    isSentenceEnd c = true ->
    Sentences s l ->
    Sentences (String c s) l
| Sentences_cons (clause ending rest : string) (l : list string) :
    clause <> EmptyString ->
    allChars isClauseChar clause = true ->
    allChars isSentenceEnd ending = true ->
    startsWith isSentenceEnd rest = false ->
    Sentences rest l ->
    Sentences (clause ++ ending ++ rest) ((clause ++ ending) :: l).

(** ** Properties of the splitter *)

Lemma append_nil_r (s : string) : s ++ "" = s.
Proof. induction s as [|c s IH]; simpl; [reflexivity | now rewrite IH]. Qed.

Lemma append_assoc (a b c : string) : (a ++ b) ++ c = a ++ b ++ c.
Proof. induction a as [|x a IH]; simpl; [reflexivity | now rewrite IH]. Qed.

Lemma length_append (a b : string) :
  String.length (a ++ b) = String.length a + String.length b.
Proof. induction a as [|x a IH]; simpl; [reflexivity | now rewrite IH]. Qed.

Lemma substring_prefix (m rest : string) :
  substring 0 (String.length m) (m ++ rest) = m.
Proof.
  induction m as [|c m IH]; simpl.
  - destruct rest; reflexivity.
  - now rewrite IH.
Qed.

Lemma matched_append (m rest : string) : Regex.matched (m ++ rest) rest = m.
Proof.
  unfold Regex.matched. rewrite length_append.
  replace (String.length m + String.length rest - String.length rest)
    with (String.length m) by lia.
  apply substring_prefix.
Qed.

Lemma take_drop_leading (f : ascii -> bool) (s : string) :
  takeLeading f s ++ dropLeading f s = s.
Proof.
  induction s as [|c s IH]; simpl; [reflexivity|].
  destruct (f c); simpl; [now rewrite IH | reflexivity].
Qed.

Lemma allChars_takeLeading (f : ascii -> bool) (s : string) :
  allChars f (takeLeading f s) = true.
Proof.
  induction s as [|c s IH]; simpl; [reflexivity|].
  destruct (f c) eqn:E; simpl; [now rewrite E | reflexivity].
Qed.

Lemma startsWith_dropLeading (f : ascii -> bool) (s : string) :
  startsWith f (dropLeading f s) = false.
Proof.
  induction s as [|c s IH]; simpl; [reflexivity|].
  destruct (f c) eqn:E; simpl; [exact IH | exact E].
Qed.

Lemma dropLeading_not_starting (f : ascii -> bool) (s : string) :
  startsWith f s = false -> dropLeading f s = s.
Proof. destruct s as [|c s]; simpl; [reflexivity|]. now intros ->. Qed.

Lemma length_dropLeading (f : ascii -> bool) (s : string) :
  String.length (dropLeading f s) <= String.length s.
Proof.
  induction s as [|c s IH]; simpl; [lia|].
  destruct (f c); simpl; lia.
Qed.

(** A greedy repetition in front of a continuation that cannot fail reads
    the whole run and never backtracks. *)
Lemma repeatMatcher_greedy (cls : Regex.CharacterClass) (k : Regex.Continuation) :
  (forall s, k s <> None) ->
  forall s,
    Regex.repeatMatcher cls s k = k (dropLeading (Regex.classMatches cls) s).
Proof.
  intros Hk. induction s as [|c s IH]; simpl; [reflexivity|].
  destruct (Regex.classMatches cls c); [|reflexivity].
  rewrite IH. destruct (k _) eqn:E; [reflexivity|]. now apply Hk in E.
Qed.

Lemma classMatches_clause (c : ascii) :
  Regex.classMatches (Regex.ClassOf true sentenceEnd) c = isClauseChar c.
Proof. reflexivity. Qed.

Lemma matchAt_sentence (s : string) :
  Regex.matchAt sentencePattern s =
  match s with
  | EmptyString => None
  | String c s' => if isSentenceEnd c then None else Some (afterSentence s')
  end.
Proof.
  destruct s as [|c s']; [reflexivity|].
  unfold Regex.matchAt, sentencePattern.
  cbn [Regex.patternMatcher Regex.termMatcher Regex.atomMatcher
       Regex.quantifier Regex.atom].
  rewrite classMatches_clause. unfold isClauseChar.
  destruct (isSentenceEnd c); simpl; [reflexivity|].
  rewrite repeatMatcher_greedy.
  - rewrite repeatMatcher_greedy by discriminate.
    reflexivity.
  - intros t. rewrite repeatMatcher_greedy by discriminate. discriminate.
Qed.

Lemma matchAllFrom_skip (p : Regex.Pattern) (m rest : string) :
  Regex.matchAllFrom p (m ++ rest) (String.length m) =
  Regex.matchAllFrom p rest 0.
Proof. induction m as [|c m IH]; simpl; [reflexivity | exact IH]. Qed.

Lemma matchAll_skip_end (c : ascii) (s : string) :
  isSentenceEnd c = true ->
  Regex.matchAllFrom sentencePattern (String c s) 0 =
  Regex.matchAllFrom sentencePattern s 0.
Proof.
  intros H. cbn [Regex.matchAllFrom]. rewrite matchAt_sentence.
  now rewrite H.
Qed.

Lemma sentence_decompose (s : string) :
  s = takeLeading isClauseChar s ++
      takeLeading isSentenceEnd (dropLeading isClauseChar s) ++
      afterSentence s.
Proof.
  unfold afterSentence. now rewrite !take_drop_leading.
Qed.

Lemma matchAll_clause (c : ascii) (s : string) :
  isSentenceEnd c = false ->
  Regex.matchAllFrom sentencePattern (String c s) 0 =
  (String c (takeLeading isClauseChar s) ++
     takeLeading isSentenceEnd (dropLeading isClauseChar s))
    :: Regex.matchAllFrom sentencePattern (afterSentence s) 0.
Proof.
  intros H. cbn [Regex.matchAllFrom]. rewrite matchAt_sentence, H.
  set (clause := takeLeading isClauseChar s).
  set (ending := takeLeading isSentenceEnd (dropLeading isClauseChar s)).
  assert (Hs : s = (clause ++ ending) ++ afterSentence s)
    by (rewrite append_assoc; apply sentence_decompose).
  assert (Hm : Regex.matched (String c s) (afterSentence s)
               = String c (clause ++ ending)).
  { rewrite Hs at 1.
    change (String c ((clause ++ ending) ++ afterSentence s))
      with ((String c (clause ++ ending)) ++ afterSentence s).
    apply matched_append. }
  rewrite Hm. cbn [String.length]. rewrite Nat.sub_succ, Nat.sub_0_r.
  rewrite Hs at 1. rewrite matchAllFrom_skip. reflexivity.
Qed.

Lemma Sentences_matchAll_bounded (n : nat) :
  forall s, String.length s <= n ->
    Sentences s (Regex.matchAllFrom sentencePattern s 0).
Proof.
  induction n as [|n IH]; intros [|c s] Hlen; simpl in Hlen;
    try (exact Sentences_nil); try lia.
  destruct (isSentenceEnd c) eqn:E.
  - rewrite matchAll_skip_end by exact E.
    apply Sentences_skip; [exact E | apply IH; lia].
  - rewrite matchAll_clause by exact E.
    rewrite (sentence_decompose s) at 1.
    change (String c (?a ++ ?b ++ ?r)) with ((String c a) ++ b ++ r).
    change (String c ?a ++ ?b) with ((String c a) ++ b).
    apply Sentences_cons.
    + discriminate.
    + simpl. unfold isClauseChar at 1. rewrite E. simpl.
      apply allChars_takeLeading.
    + apply allChars_takeLeading.
    + apply startsWith_dropLeading.
    + apply IH. unfold afterSentence.
      pose proof (length_dropLeading isSentenceEnd (dropLeading isClauseChar s)).
      pose proof (length_dropLeading isClauseChar s). lia.
Qed.

(** The array the pattern yields on [text] cuts it into sentences. *)
Lemma Sentences_matchAll (text : string) :
  Sentences text (Regex.matchAllFrom sentencePattern text 0).
Proof. apply Sentences_matchAll_bounded with (n := String.length text). lia. Qed.

Lemma splitIntoSentences_matchAll (text : string) :
  splitIntoSentences text = Regex.matchAllFrom sentencePattern text 0.
Proof.
  unfold splitIntoSentences, String_match.
  destruct (Regex.matchAllFrom sentencePattern text 0); reflexivity.
Qed.

Lemma Sentences_split (text : string) :
  Sentences text (splitIntoSentences text).
Proof. rewrite splitIntoSentences_matchAll. apply Sentences_matchAll. Qed.

Lemma join_cons (x : string) (l : list string) : join (x :: l) = x ++ join l.
Proof. reflexivity. Qed.

Lemma dropLeading_clause_first (clause tail : string) :
  clause <> EmptyString ->
  allChars isClauseChar clause = true ->
  dropLeading isSentenceEnd (clause ++ tail) = clause ++ tail.
Proof.
  destruct clause as [|c clause]; [congruence|]. intros _. simpl.
  intros H. apply andb_prop in H. destruct H as [H _].
  unfold isClauseChar in H. apply negb_true_iff in H. now rewrite H.
Qed.

Lemma Sentences_join (s : string) (l : list string) :
  Sentences s l -> join l = dropLeading isSentenceEnd s.
Proof.
  induction 1 as [|c s l Hc _ IH|clause ending rest l Hne Hcl _ Hrest _ IH].
  - reflexivity.
  - simpl. now rewrite Hc.
  - rewrite join_cons, IH, (dropLeading_not_starting _ _ Hrest).
    rewrite dropLeading_clause_first by assumption.
    apply append_assoc.
Qed.

Lemma substringOf_later (c : ascii) (x s : string) :
  substringOf x s -> substringOf x (String c s).
Proof.
  intros (before & after & ->). now exists (String c before), after.
Qed.

Lemma substringOf_after (front x s : string) :
  substringOf x s -> substringOf x (front ++ s).
Proof.
  intros (before & after & ->). exists (front ++ before), after.
  now rewrite append_assoc.
Qed.

Lemma clauseWithEnd_starts (x : string) :
  clauseWithEnd x -> startsWith isSentenceEnd x = false.
Proof.
  intros (clause & ending & -> & Hne & Hcl & _).
  destruct clause as [|c clause]; [congruence|]. simpl in *.
  apply andb_prop in Hcl. destruct Hcl as [Hc _].
  now apply negb_true_iff in Hc.
Qed.

Lemma Sentences_elements (s : string) (l : list string) :
  Sentences s l ->
  forall x, In x l -> substringOf x s /\ clauseWithEnd x.
Proof.
  induction 1 as [|c s l _ _ IH|clause ending rest l Hne Hcl Hend _ _ IH];
    intros x Hin.
  - destruct Hin.
  - destruct (IH x Hin) as [Hsub Hx]. split; [|exact Hx].
    now apply substringOf_later.
  - destruct Hin as [<- | Hin].
    + split.
      * exists EmptyString, rest. simpl. symmetry. apply append_assoc.
      * now exists clause, ending.
    + destruct (IH x Hin) as [Hsub Hx]. split; [|exact Hx].
      rewrite <- append_assoc. now apply substringOf_after.
Qed.

Lemma matchAll_only_ends (text : string) :
  allChars isSentenceEnd text = true ->
  Regex.matchAllFrom sentencePattern text 0 = [].
Proof.
  induction text as [|c text IH]; intros H.
  - reflexivity.
  - simpl in H. apply andb_prop in H. destruct H as [Hc Hrest].
    rewrite matchAll_skip_end by exact Hc. now apply IH.
Qed.

(** C1. On ["Hello world. How are you? Fine!"] the splitter returns the
    three sentences ["Hello world."], [" How are you?"] and [" Fine!"], in
    that order. *)
Theorem splitIntoSentences_hello_world :
  splitIntoSentences "Hello world. How are you? Fine!" =
  ["Hello world."; " How are you?"; " Fine!"].
Proof. vm_compute. reflexivity. Qed.

(** C2, as amended. Joining the sentences of a text gives the text back
    without the sentence ends it starts with, and so the text itself when it
    starts with none: no other character is lost. *)
Theorem join_splitIntoSentences (text : string) :
  join (splitIntoSentences text) = dropLeading isSentenceEnd text /\
  (startsWith isSentenceEnd text = false ->
   join (splitIntoSentences text) = text).
Proof.
  assert (H : join (splitIntoSentences text) = dropLeading isSentenceEnd text)
    by apply Sentences_join, Sentences_split.
  split; [exact H|].
  intros Hstart. rewrite H. now apply dropLeading_not_starting.
Qed.

(** C4. Every sentence the splitter returns is a contiguous piece of the
    text, made of one or more characters other than ['.'], ['!'], ['?']
    followed by zero or more of these three; it never starts with one. *)
Theorem splitIntoSentences_elements (text x : string) :
  In x (splitIntoSentences text) ->
  substringOf x text /\
  clauseWithEnd x /\
  startsWith isSentenceEnd x = false.
Proof.
  intros Hin.
  destruct (Sentences_elements (Sentences_split text) x Hin) as [Hsub Hx].
  repeat split; [exact Hsub | exact Hx | now apply clauseWithEnd_starts].
Qed.

(** C9. On a text made only of ['.'], ['!'] and ['?'], the empty text
    included, the pattern matches nothing, [match] answers [null], and the
    splitter returns the empty array. *)
Theorem splitIntoSentences_only_ends (text : string) :
  allChars isSentenceEnd text = true ->
  String_match text sentencePattern = JsNull /\
  splitIntoSentences text = [].
Proof.
  intros H. unfold splitIntoSentences, String_match.
  rewrite (matchAll_only_ends text H). split; reflexivity.
Qed.

(** ** Properties of the handlers *)

(** A submission runs to the request, and then on with whatever the request
    settled as. *)
Lemma run_handleSubmit (w : World) (r st : AppState) :
  run w st (handleSubmit r) =
  let st0 := applyUpdate (SetSyntaxTree None)
               (applyUpdate (SetResults None)
                  (applyUpdate (SetLoading true) st)) in
  let before := [event PreventDefault;
                 event (SetState (SetLoading true));
                 event (SetState (SetResults None));
                 event (SetState (SetSyntaxTree None));
                 event (AxiosPost (translationRequest r))] in
  match settle w (translationRequest r) with
  | Fulfilled response =>
      {| final :=
           applyUpdate (SetLoading false)
             (applyUpdate (SetSentences (splitIntoSentences (inputText r)))
                (applyUpdate (SetResults (Some (data response))) st0));
         trace :=
           (before ++
            [event (SetState (SetResults (Some (data response))));
             event (SetState (SetSentences (splitIntoSentences (inputText r))));
             event (SetState (SetLoading false))])%list;
         outcome := Returned tt |}
  | Rejected reason =>
      {| final := applyUpdate (SetLoading false) st0;
         trace :=
           (before ++
            [event (ConsoleError "Error during API call:" reason);
             event (SetState (SetLoading false))])%list;
         outcome := Returned tt |}
  end.
Proof.
  unfold handleSubmit, translationRequest. cbn -[splitIntoSentences].
  destruct (settle w _); reflexivity.
Qed.

Lemma isFalsy_nonempty (s : string) : s <> EmptyString -> isFalsy s = false.
Proof. destruct s; [congruence | reflexivity]. Qed.

Lemma run_handleGenerateTree (w : World) (r st : AppState) :
  selectedSentence r <> EmptyString ->
  run w st (handleGenerateTree r) =
  let st0 := applyUpdate (SetSyntaxTree None)
               (applyUpdate (SetTreeLoading true) st) in
  let before := [event (SetState (SetTreeLoading true));
                 event (SetState (SetSyntaxTree None));
                 event (AxiosPost (treeRequest r))] in
  match settle w (treeRequest r) with
  | Fulfilled response =>
      let blob := {| blobParts := [BufferPart (data response)];
                     blobType := "image/png" |} in
      {| final :=
           applyUpdate (SetTreeLoading false)
             (applyUpdate (SetSyntaxTree (Some (objectURL w blob))) st0);
         trace :=
           (before ++
            [event (CreateObjectURL blob);
             event (SetState (SetSyntaxTree (Some (objectURL w blob))));
             event (SetState (SetTreeLoading false))])%list;
         outcome := Returned tt |}
  | Rejected reason =>
      {| final := applyUpdate (SetTreeLoading false) st0;
         trace :=
           (before ++
            [event (ConsoleError "Error during tree generation API call:"
                      reason);
             event (SetState (SetTreeLoading false))])%list;
         outcome := Returned tt |}
  end.
Proof.
  intros Hsel. unfold handleGenerateTree, treeRequest.
  rewrite isFalsy_nonempty by exact Hsel. cbn.
  destruct (settle w _); reflexivity.
Qed.

Lemma run_handleGenerateTree_nothing_selected (w : World) (r st : AppState) :
  selectedSentence r = EmptyString ->
  run w st (handleGenerateTree r) =
  {| final := st; trace := []; outcome := Returned tt |}.
Proof. intros Hsel. unfold handleGenerateTree. now rewrite Hsel. Qed.


(** C5. A submission sends exactly one request: a POST to
    [/api/v0/translation] with body [{ text: inputText }].  A tree
    generation with a sentence selected sends exactly one request: a POST to
    [/api/v0/tree] with body [{ text: selectedSentence }], asking for the
    response as an array buffer.  No handler sends more than one. *)
Theorem handlers_one_request (w : World) (r st : AppState) :
  requestsOf (trace (run w st (handleSubmit r))) = [translationRequest r] /\
  (selectedSentence r <> EmptyString ->
   requestsOf (trace (run w st (handleGenerateTree r))) = [treeRequest r]) /\
  List.length (requestsOf (trace (run w st (handleGenerateTree r)))) <= 1 /\
  requestsOf (trace (run w st (handleDownloadResults r))) = [].
Proof.
  assert (Htree : selectedSentence r <> EmptyString ->
            requestsOf (trace (run w st (handleGenerateTree r)))
            = [treeRequest r]).
  { intros Hsel. rewrite run_handleGenerateTree by exact Hsel. cbv zeta.
    destruct (settle w (treeRequest r)); reflexivity. }
  split; [|split; [exact Htree|split]].
  - rewrite run_handleSubmit. cbv zeta.
    destruct (settle w (translationRequest r)); reflexivity.
  - destruct (selectedSentence r) as [|c s] eqn:Hsel.
    + rewrite run_handleGenerateTree_nothing_selected by exact Hsel.
      simpl. lia.
    + rewrite Htree by discriminate. simpl. lia.
  - unfold handleDownloadResults. destruct (results r); reflexivity.
Qed.

(** C6. A submission sets [results] and [syntaxTree] to null before it
    sends its request; when the request succeeds, the run ends with
    [results] being the data of the response and [sentences] being the
    sentences of the submitted text. *)
Theorem handleSubmit_replaces_results (w : World) (r st : AppState) :
  let out := run w st (handleSubmit r) in
  (exists before after,
     trace out =
       (before ++ event (AxiosPost (translationRequest r)) :: after)%list /\
     requestsOf before = [] /\
     results (replay before st) = None /\
     syntaxTree (replay before st) = None) /\
  (forall response,
     settle w (translationRequest r) = Fulfilled response ->
     results (final out) = Some (data response) /\
     sentences (final out) = splitIntoSentences (inputText r)).
Proof.
  cbv zeta. rewrite run_handleSubmit. cbv zeta. split.
  - exists [event PreventDefault;
            event (SetState (SetLoading true));
            event (SetState (SetResults None));
            event (SetState (SetSyntaxTree None))].
    destruct (settle w (translationRequest r)) as [response|reason];
      eexists; repeat split.
  - intros response ->. split; reflexivity.
Qed.

(** C8. When the tree request of a selected sentence fails, the failure is
    caught and written to the console, [syntaxTree] stays null from the
    reset at the start, and [treeLoading] is false at the end. *)
Theorem handleGenerateTree_failure
    (w : World) (r st : AppState) (reason : RequestError) :
  selectedSentence r <> EmptyString ->
  settle w (treeRequest r) = Rejected reason ->
  let out := run w st (handleGenerateTree r) in
  outcome out = Returned tt /\
  logsOf (trace out) = [("Error during tree generation API call:", reason)] /\
  updatesOf (trace out) =
    [SetTreeLoading true; SetSyntaxTree None; SetTreeLoading false] /\
  syntaxTree (final out) = None /\
  treeLoading (final out) = false.
Proof.
  intros Hsel Hfail. cbv zeta. rewrite run_handleGenerateTree by exact Hsel.
  cbv zeta. rewrite Hfail. repeat split.
Qed.

(** C10. With no sentence selected, tree generation returns at once: no
    effect at all, so no request, and every state cell as it was. *)
Theorem handleGenerateTree_nothing_selected (w : World) (r st : AppState) :
  selectedSentence r = EmptyString ->
  let out := run w st (handleGenerateTree r) in
  trace out = [] /\
  requestsOf (trace out) = [] /\
  updatesOf (trace out) = [] /\
  final out = st /\
  outcome out = Returned tt.
Proof.
  intros Hsel. cbv zeta.
  rewrite run_handleGenerateTree_nothing_selected by exact Hsel.
  repeat split.
Qed.

(** *** The download *)

Lemma forEachWordInfo_join (infos : list WordInfo) (fileContent : string) :
  forEachWordInfo infos fileContent =
  fileContent ++ join (map wordLine infos).
Proof.
  unfold forEachWordInfo. revert fileContent.
  induction infos as [|info infos IH]; intros fileContent; simpl.
  - symmetry. apply append_nil_r.
  - rewrite IH. apply append_assoc.
Qed.

Lemma substringOf_refl (x : string) : substringOf x x.
Proof. exists EmptyString, EmptyString. simpl. now rewrite append_nil_r. Qed.

Lemma substringOf_head (x rest : string) : substringOf x (x ++ rest).
Proof. now exists EmptyString, rest. Qed.

Ltac find_substring :=
  repeat first
    [ apply substringOf_refl
    | apply substringOf_head
    | apply substringOf_after ].

Lemma substringOf_trans (a b c : string) :
  substringOf a b -> substringOf b c -> substringOf a c.
Proof.
  intros (p & q & ->) (p' & q' & ->). exists (p' ++ p), (q ++ q').
  now rewrite !append_assoc.
Qed.

Lemma join_app (a b : list string) : join (a ++ b) = join a ++ join b.
Proof.
  induction a as [|x a IH]; [reflexivity|].
  change (join ((x :: a) ++ b)) with (x ++ join (a ++ b)).
  change (join (x :: a)) with (x ++ join a).
  now rewrite IH, append_assoc.
Qed.

Lemma unlines_app (a b : list string) :
  unlines (a ++ b) = unlines a ++ unlines b.
Proof. unfold unlines. now rewrite map_app, join_app. Qed.

Lemma unlines_cons (line : string) (lines : list string) :
  unlines (line :: lines) = line ++ lineFeed ++ unlines lines.
Proof. unfold unlines. simpl. apply append_assoc. Qed.

(** What the two loops add to the file is one closed line per entry. *)
Lemma join_wordLines (infos : list WordInfo) :
  join (map wordLine infos) = unlines (map entryLine infos).
Proof.
  induction infos as [|info infos IH]; [reflexivity|].
  simpl map. rewrite join_cons, unlines_cons, IH.
  unfold wordLine, entryLine. rewrite !append_assoc. reflexivity.
Qed.

Lemma fileContentOf_lines (res : TranslationData) :
  fileContentOf res = unlines (fileLines res).
Proof.
  unfold fileContentOf, fileLines. cbv zeta.
  rewrite !forEachWordInfo_join, !join_wordLines, !unlines_app.
  rewrite !unlines_cons, !append_assoc. reflexivity.
Qed.

Lemma linesOf_line (line rest : string) :
  noLineFeed line ->
  linesOf (line ++ lineFeed ++ rest) = line :: linesOf rest.
Proof.
  unfold noLineFeed. induction line as [|c line IH]; intros H.
  - reflexivity.
  - simpl in H. apply andb_prop in H. destruct H as [Hc Hline].
    apply negb_true_iff in Hc.
    change (String c line ++ lineFeed ++ rest)
      with (String c (line ++ lineFeed ++ rest)).
    cbn [linesOf]. now rewrite Hc, IH.
Qed.

Lemma linesOf_unlines (lines : list string) :
  Forall noLineFeed lines ->
  linesOf (unlines lines) = (lines ++ [EmptyString])%list.
Proof.
  induction 1 as [|line lines Hline _ IH]; [reflexivity|].
  rewrite unlines_cons, linesOf_line by exact Hline. now rewrite IH.
Qed.

Lemma substringOf_unlines (line : string) (lines : list string) :
  In line lines -> substringOf (line ++ lineFeed) (unlines lines).
Proof.
  induction lines as [|x lines IH]; intros Hin; [destruct Hin|].
  rewrite unlines_cons, <- append_assoc. destruct Hin as [-> | Hin].
  - apply substringOf_head.
  - now apply substringOf_after, IH.
Qed.

Lemma substringOf_line (x line : string) (lines : list string) :
  substringOf x line -> In line lines -> substringOf x (unlines lines).
Proof.
  intros Hx Hin. apply substringOf_trans with (b := line ++ lineFeed).
  - destruct Hx as (p & q & ->). exists p, (q ++ lineFeed).
    now rewrite !append_assoc.
  - now apply substringOf_unlines.
Qed.

(** C7. With results at hand, the download saves a plain-text file named
    [translation_results.txt].  Its text is, line by line and each line
    closed by a line feed: the title; the original text, its word count and
    one line per entry of its word table, giving the word, the frequency and
    the grammatical information of the entry; and then the same for the
    translated text.  So the file contains both texts and both word counts,
    and the line of every entry of both tables. *)
Theorem handleDownloadResults_file
    (w : World) (r st : AppState) (res : TranslationData) :
  results r = Some res ->
  let out := run w st (handleDownloadResults r) in
  let content := fileContentOf res in
  savesFile w (trace out) "translation_results.txt"
    {| blobParts := [TextPart content];
       blobType := "text/plain;charset=utf-8" |} /\
  content = unlines (fileLines res) /\
  (Forall noLineFeed (fileLines res) ->
   linesOf content = (fileLines res ++ [EmptyString])%list) /\
  substringOf (ToString (original_text res)) content /\
  substringOf (ToString (translated_text res)) content /\
  substringOf (ToString (words_count (original_text_analysis res))) content /\
  substringOf (ToString (words_count (translated_text_analysis res))) content /\
  (forall info,
     In info (words_info (original_text_analysis res)) \/
     In info (words_info (translated_text_analysis res)) ->
     substringOf
       ("  - Word: " ++ ToString (word info) ++
        ", Frequency: " ++ ToString (freq info) ++
        ", Grammatical Info: " ++ ToString (gram_info info) ++ lineFeed)
       content).
Proof.
  intros Hres. cbv zeta. unfold handleDownloadResults. rewrite Hres.
  split.
  { unfold savesFile. cbn -[fileContentOf]. auto 6. }
  rewrite fileContentOf_lines.
  split; [reflexivity|]. split; [apply linesOf_unlines|].
  repeat split.
  - apply substringOf_line with (line := ToString (original_text res));
      [apply substringOf_refl | unfold fileLines; simpl; auto 10].
  - apply substringOf_line with (line := ToString (translated_text res));
      [apply substringOf_refl|].
    unfold fileLines. do 2 (apply in_or_app; right). simpl; auto 10.
  - apply substringOf_line
      with (line := "Words Count: " ++
                    ToString (words_count (original_text_analysis res)));
      [find_substring | unfold fileLines; simpl; auto 12].
  - apply substringOf_line
      with (line := "Words Count: " ++
                    ToString (words_count (translated_text_analysis res)));
      [find_substring|].
    unfold fileLines. do 2 (apply in_or_app; right). simpl; auto 10.
  - intros info Hin.
    replace ("  - Word: " ++ ToString (word info) ++
             ", Frequency: " ++ ToString (freq info) ++
             ", Grammatical Info: " ++ ToString (gram_info info) ++ lineFeed)
      with (entryLine info ++ lineFeed)
      by (unfold entryLine; now rewrite !append_assoc).
    apply substringOf_unlines. unfold fileLines.
    apply in_or_app; right. destruct Hin as [Hin|Hin].
    + apply in_or_app; left. now apply in_map.
    + do 2 (apply in_or_app; right). now apply in_map.
Qed.

(** ** More on the splitter *)

(** The array of matches, one unit of input at a time: a sentence end in
    front is passed over; any other unit starts a sentence that runs to the
    end of the sentence ends after its clause. *)
Lemma splitIntoSentences_nil : splitIntoSentences EmptyString = [].
Proof. reflexivity. Qed.

Lemma splitIntoSentences_skip (c : ascii) (s : string) :
  isSentenceEnd c = true ->
  splitIntoSentences (String c s) = splitIntoSentences s.
Proof.
  intros H. rewrite !splitIntoSentences_matchAll. now apply matchAll_skip_end.
Qed.

Lemma splitIntoSentences_clause (c : ascii) (s : string) :
  isSentenceEnd c = false ->
  splitIntoSentences (String c s) =
  (String c (takeLeading isClauseChar s) ++
     takeLeading isSentenceEnd (dropLeading isClauseChar s))
    :: splitIntoSentences (afterSentence s).
Proof.
  intros H. rewrite !splitIntoSentences_matchAll. now apply matchAll_clause.
Qed.

Lemma length_afterSentence (s : string) :
  String.length (afterSentence s) <= String.length s.
Proof.
  unfold afterSentence.
  pose proof (length_dropLeading isSentenceEnd (dropLeading isClauseChar s)).
  pose proof (length_dropLeading isClauseChar s). lia.
Qed.

(** Induction along the way the splitter reads a text. *)
Lemma splitIntoSentences_ind (P : string -> Prop) :
  P EmptyString ->
  (forall c s, isSentenceEnd c = true -> P s -> P (String c s)) ->
  (forall c s, isSentenceEnd c = false -> P (afterSentence s) ->
     P (String c s)) ->
  forall text, P text.
Proof.
  intros Hnil Hskip Hclause text.
  assert (H : forall n s, String.length s <= n -> P s).
  { induction n as [|n IH]; intros [|c s] Hlen; simpl in Hlen;
      try exact Hnil; try lia.
    destruct (isSentenceEnd c) eqn:E.
    - apply Hskip; [exact E | apply IH; lia].
    - apply Hclause; [exact E|]. apply IH.
      pose proof (length_afterSentence s). lia. }
  apply (H (String.length text)). lia.
Qed.

Lemma allChars_append (f : ascii -> bool) (a b : string) :
  allChars f (a ++ b) = allChars f a && allChars f b.
Proof.
  induction a as [|c a IH]; simpl; [reflexivity|].
  now rewrite IH, andb_assoc.
Qed.

Lemma takeLeading_all (f : ascii -> bool) (a : string) :
  allChars f a = true -> takeLeading f a = a /\ dropLeading f a = EmptyString.
Proof.
  induction a as [|c a IH]; simpl; [now split|].
  intros H. apply andb_prop in H. destruct H as [Hc Ha]. rewrite Hc.
  destruct (IH Ha) as [-> ->]. now split.
Qed.

Lemma leading_none (f g : ascii -> bool) (a : string) :
  (forall c, g c = true -> f c = false) ->
  allChars g a = true ->
  takeLeading f a = EmptyString /\ dropLeading f a = a.
Proof.
  intros Hfg. destruct a as [|c a]; simpl; [now split|].
  intros H. apply andb_prop in H. destruct H as [Hc _].
  now rewrite (Hfg c Hc).
Qed.

(** Reading a run off the front of [s ++ b] stops inside [s], or at the
    start of [b] when [b] does not continue the run. *)
Lemma leading_append (f : ascii -> bool) (s b : string) :
  dropLeading f s <> EmptyString \/ startsWith f b = false ->
  takeLeading f (s ++ b) = takeLeading f s /\
  dropLeading f (s ++ b) = dropLeading f s ++ b.
Proof.
  induction s as [|c s IH]; simpl; intros H.
  - destruct H as [H|H]; [congruence|].
    destruct b as [|x b]; simpl in *; [now split|]. now rewrite H.
  - destruct (f c); [|now split].
    destruct (IH H) as [-> ->]. now split.
Qed.

Lemma leading_append_all (f : ascii -> bool) (a b : string) :
  allChars f a = true ->
  takeLeading f (a ++ b) = a ++ takeLeading f b /\
  dropLeading f (a ++ b) = dropLeading f b.
Proof.
  induction a as [|c a IH]; simpl; [now split|].
  intros H. apply andb_prop in H. destruct H as [Hc Ha]. rewrite Hc.
  destruct (IH Ha) as [-> ->]. now split.
Qed.

Lemma isClauseChar_of_end (c : ascii) :
  isSentenceEnd c = true -> isClauseChar c = false.
Proof. unfold isClauseChar. now intros ->. Qed.

Lemma clauseWithEnd_split (x : string) :
  clauseWithEnd x -> splitIntoSentences x = [x].
Proof.
  intros (clause & ending & -> & Hne & Hcl & Hend).
  destruct clause as [|c clause]; [congruence|]. simpl in Hcl.
  apply andb_prop in Hcl. destruct Hcl as [Hc Hcl].
  unfold isClauseChar in Hc. apply negb_true_iff in Hc.
  change (String c clause ++ ending) with (String c (clause ++ ending)).
  rewrite splitIntoSentences_clause by exact Hc.
  destruct (takeLeading_all _ _ Hcl) as [Htc Hdc].
  destruct (leading_none isClauseChar isSentenceEnd _ isClauseChar_of_end Hend)
    as [Hte Hde].
  destruct (takeLeading_all _ _ Hend) as [Htall Hdall].
  destruct (leading_append_all isClauseChar clause ending Hcl) as [Htake Hdrop].
  rewrite Hte, append_nil_r in Htake. rewrite Hde in Hdrop.
  unfold afterSentence. rewrite Htake, Hdrop, Htall, Hdall.
  reflexivity.
Qed.

Lemma splitIntoSentences_dropLeading (text : string) :
  splitIntoSentences (dropLeading isSentenceEnd text) = splitIntoSentences text.
Proof.
  induction text as [|c text IH]; simpl; [reflexivity|].
  destruct (isSentenceEnd c) eqn:E; [|reflexivity].
  now rewrite splitIntoSentences_skip by exact E.
Qed.

Lemma endsWith_cons (f : ascii -> bool) (c : ascii) (s : string) :
  s <> EmptyString -> endsWith f (String c s) = endsWith f s.
Proof. destruct s; [congruence | reflexivity]. Qed.

Lemma endsWith_dropLeading (f g : ascii -> bool) (s : string) :
  endsWith f s = true ->
  dropLeading g s = EmptyString \/ endsWith f (dropLeading g s) = true.
Proof.
  induction s as [|c s IH]; intros H; [now left|].
  cbn [dropLeading]. destruct (g c); [|now right].
  destruct s as [|x s]; [now left|].
  apply IH. now rewrite endsWith_cons in H.
Qed.

Lemma endsWith_end_not_all_clause (s : string) :
  endsWith isSentenceEnd s = true ->
  dropLeading isClauseChar s <> EmptyString.
Proof.
  induction s as [|c s IH]; intros H; [discriminate|].
  cbn [dropLeading]. destruct (isClauseChar c) eqn:E; [|cbn; discriminate].
  destruct s as [|x s].
  - simpl in H. unfold isClauseChar in E. now rewrite H in E.
  - apply IH. now rewrite endsWith_cons in H.
Qed.

Lemma endsWith_append_all (f : ascii -> bool) (a e : string) :
  allChars f e = true -> e <> EmptyString -> endsWith f (a ++ e) = true.
Proof.
  intros Hall Hne. induction a as [|c a IH].
  - simpl. induction e as [|x e IHe]; [congruence|].
    simpl in Hall. apply andb_prop in Hall. destruct Hall as [Hx He].
    destruct e as [|y e]; [exact Hx|].
    rewrite endsWith_cons by discriminate. apply IHe; [exact He|discriminate].
  - change (String c a ++ e) with (String c (a ++ e)).
    rewrite endsWith_cons; [exact IH|].
    destruct a; [simpl; exact Hne | discriminate].
Qed.

(** Where a unit of [a ++ b] stands: in [a], or in [b]. *)
Lemma append_occurrence (a b u v : string) (c : ascii) :
  a ++ b = u ++ String c v ->
  (exists post, a = u ++ String c post /\ v = post ++ b) \/
  (exists u', u = a ++ u' /\ b = u' ++ String c v).
Proof.
  revert u. induction a as [|x a IH]; intros u H.
  - right. now exists u.
  - destruct u as [|y u]; simpl in H.
    + injection H as -> <-. left. now exists a.
    + injection H as -> H. destruct (IH u H) as [(post & -> & ->)|(u' & -> & ->)].
      * left. now exists post.
      * right. now exists u'.
Qed.

(** A unit of the joined parts stands in one of the parts. *)
Lemma join_occurrence (l : list string) (u v : string) (c : ascii) :
  join l = u ++ String c v ->
  exists front pre post back,
    l = (front ++ (pre ++ String c post)%string :: back)%list /\
    u = join front ++ pre /\
    v = post ++ join back.
Proof.
  revert u. induction l as [|x l IH]; intros u H.
  - destruct u; discriminate.
  - rewrite join_cons in H.
    destruct (append_occurrence _ _ _ _ _ H)
      as [(post & -> & ->)|(u' & -> & Hrest)].
    + now exists [], u, post, l.
    + destruct (IH u' Hrest) as (front & pre & post & back & -> & -> & ->).
      exists (x :: front), pre, post, back. repeat split.
      rewrite join_cons. now rewrite append_assoc.
Qed.

Lemma allChars_occurrence (f : ascii -> bool) (u v : string) (c : ascii) :
  allChars f (u ++ String c v) = true -> f c = true.
Proof.
  rewrite allChars_append. simpl. intros H.
  apply andb_prop in H. destruct H as [_ H].
  apply andb_prop in H. now destruct H.
Qed.

(** X1. The splitter returns no sentence exactly for the texts that hold
    nothing but ['.'], ['!'] and ['?'], and any other character of a text
    ends up in a sentence: the character at a place of the text, when it is
    none of the three, stands at that place in one of the sentences
    returned, the sentences in front of it and the sentence ends the text
    starts with making up what comes before it. *)
Theorem splitIntoSentences_empty_iff (text : string) :
  (splitIntoSentences text = [] <-> allChars isSentenceEnd text = true) /\
  (forall before c after,
     text = before ++ String c after ->
     isSentenceEnd c = false ->
     exists front pre post back,
       splitIntoSentences text =
         (front ++ (pre ++ String c post)%string :: back)%list /\
       before = takeLeading isSentenceEnd text ++ join front ++ pre /\
       after = post ++ join back).
Proof.
  split.
  - pattern text. apply splitIntoSentences_ind; clear text.
    + split; reflexivity.
    + intros c s Hc IH. rewrite splitIntoSentences_skip by exact Hc.
      simpl. now rewrite Hc.
    + intros c s Hc _. rewrite splitIntoSentences_clause by exact Hc.
      simpl. rewrite Hc. split; discriminate.
  - intros before c after Htext Hc.
    pose proof (take_drop_leading isSentenceEnd text) as Hcut.
    rewrite <- (Sentences_join (Sentences_split text)) in Hcut.
    rewrite Htext in Hcut at 3.
    destruct (append_occurrence _ _ _ _ _ Hcut)
      as [(post & Hends & _)|(u' & -> & Hjoin)].
    + pose proof (allChars_takeLeading isSentenceEnd text) as Hall.
      rewrite Hends in Hall. apply allChars_occurrence in Hall. congruence.
    + destruct (join_occurrence _ _ _ _ Hjoin)
        as (front & pre & post & back & Hsplit & -> & ->).
      now exists front, pre, post, back.
Qed.

(** X2. A sentence the splitter returned is a single sentence to the
    splitter: splitting it again gives it back alone. *)
Theorem splitIntoSentences_resplit (text x : string) :
  In x (splitIntoSentences text) -> splitIntoSentences x = [x].
Proof.
  intros Hin. apply clauseWithEnd_split.
  now apply (Sentences_elements (Sentences_split text)).
Qed.

(** X3. Splitting is idempotent through joining: the sentences of the joined
    sentences of a text are the sentences of the text. *)
Theorem splitIntoSentences_join_idempotent (text : string) :
  splitIntoSentences (join (splitIntoSentences text)) = splitIntoSentences text.
Proof.
  rewrite (Sentences_join (Sentences_split text)).
  apply splitIntoSentences_dropLeading.
Qed.

Lemma splitIntoSentences_append_open (b : string) :
  startsWith isSentenceEnd b = false ->
  forall a,
    a = EmptyString \/ endsWith isSentenceEnd a = true ->
    splitIntoSentences (a ++ b) =
    (splitIntoSentences a ++ splitIntoSentences b)%list.
Proof.
  intros Hb a. pattern a. apply splitIntoSentences_ind; clear a.
  - reflexivity.
  - intros c s Hc IH Hs.
    change (String c s ++ b) with (String c (s ++ b)).
    rewrite !splitIntoSentences_skip by exact Hc. apply IH.
    destruct s as [|x s]; [now left|right].
    destruct Hs as [Hs|Hs]; [discriminate|].
    now rewrite endsWith_cons in Hs.
  - intros c s Hc IH Hs.
    assert (Hends : endsWith isSentenceEnd s = true).
    { destruct Hs as [Hs|Hs]; [discriminate|].
      destruct s as [|x s]; [simpl in Hs; congruence|].
      now rewrite endsWith_cons in Hs. }
    change (String c s ++ b) with (String c (s ++ b)).
    rewrite !splitIntoSentences_clause by exact Hc.
    destruct (leading_append isClauseChar s b
                (or_introl (endsWith_end_not_all_clause s Hends)))
      as [Htc Hdc].
    destruct (leading_append isSentenceEnd (dropLeading isClauseChar s) b
                (or_intror Hb)) as [Hte Hde].
    unfold afterSentence at 1. rewrite Htc, Hdc, Hte, Hde.
    fold (afterSentence s). rewrite IH; [reflexivity|].
    unfold afterSentence.
    destruct (endsWith_dropLeading isSentenceEnd isClauseChar s Hends)
      as [Hnone|Hsome]; [now rewrite Hnone; left|].
    destruct (endsWith_dropLeading isSentenceEnd isSentenceEnd _ Hsome);
      [now left | now right].
Qed.

(** X4. Splitting distributes over a cut placed after a sentence end and in
    front of a character that is none: the sentences of [a ++ b] are those of
    [a] followed by those of [b]. *)
Theorem splitIntoSentences_append (a b : string) :
  endsWith isSentenceEnd a = true ->
  startsWith isSentenceEnd b = false ->
  splitIntoSentences (a ++ b) =
  (splitIntoSentences a ++ splitIntoSentences b)%list.
Proof.
  intros Ha Hb. apply splitIntoSentences_append_open; [exact Hb | now right].
Qed.

(** X5. Only the last sentence can lack its ending: a sentence that is
    followed by another one ends with ['.'], ['!'] or ['?']. *)
Theorem splitIntoSentences_inner_closed
    (text : string) (front : list string) (x y : string) (back : list string) :
  splitIntoSentences text = (front ++ x :: y :: back)%list ->
  endsWith isSentenceEnd x = true.
Proof.
  revert front. pattern text. apply splitIntoSentences_ind; clear text.
  - intros [|z front]; discriminate.
  - intros c s Hc IH front. rewrite splitIntoSentences_skip by exact Hc.
    apply IH.
  - intros c s Hc IH front. rewrite splitIntoSentences_clause by exact Hc.
    destruct front as [|z front]; [|intros H; injection H as _ H; now apply (IH front)].
    intros H. injection H as Hx Hrest. subst x.
    apply (endsWith_append_all isSentenceEnd
             (String c (takeLeading isClauseChar s)));
      [apply allChars_takeLeading|].
    unfold afterSentence in Hrest.
    pose proof (startsWith_dropLeading isClauseChar s) as Hstart.
    destruct (dropLeading isClauseChar s) as [|d q]; [discriminate|].
    simpl in Hstart. unfold isClauseChar in Hstart.
    apply negb_false_iff in Hstart. simpl. now rewrite Hstart.
Qed.

(** ** More on the handlers *)

Lemma run_handleDownloadResults (w : World) (r st : AppState) :
  run w st (handleDownloadResults r) =
  match results r with
  | None => {| final := st; trace := []; outcome := Returned tt |}
  | Some res =>
      let blob := {| blobParts := [TextPart (fileContentOf res)];
                     blobType := "text/plain;charset=utf-8" |} in
      let link := {| href := objectURL w blob;
                     download := "translation_results.txt" |} in
      {| final := st;
         trace := [event (CreateElement "a");
                   event (CreateObjectURL blob);
                   event (AppendChild link);
                   event (Click link);
                   event (RemoveChild link)];
         outcome := Returned tt |}
  end.
Proof. unfold handleDownloadResults. destruct (results r); reflexivity. Qed.



(** X9. When the tree request of a selected sentence succeeds, the bytes of
    the response become a PNG blob, and [syntaxTree] ends as the object URL
    of that blob, with [treeLoading] false, nothing on the console and no
    other cell written. *)
Theorem handleGenerateTree_success
    (w : World) (r st : AppState) (response : Response (list byte)) :
  selectedSentence r <> EmptyString ->
  settle w (treeRequest r) = Fulfilled response ->
  let out := run w st (handleGenerateTree r) in
  let blob := {| blobParts := [BufferPart (data response)];
                 blobType := "image/png" |} in
  final out =
    {| inputText := inputText st; results := results st;
       syntaxTree := Some (objectURL w blob);
       selectedSentence := selectedSentence st; sentences := sentences st;
       loading := loading st; treeLoading := false |} /\
  logsOf (trace out) = [] /\
  In (event (CreateObjectURL blob)) (trace out).
Proof.
  intros Hsel Hok. cbv zeta. rewrite run_handleGenerateTree by exact Hsel.
  cbv zeta. rewrite Hok. repeat split. simpl. auto.
Qed.

(** X10. A submission writes to the console exactly when its request fails,
    and so does a tree generation with a sentence selected. *)
Theorem console_iff_failure (w : World) (r st : AppState) :
  (logsOf (trace (run w st (handleSubmit r))) <> [] <->
   exists reason, settle w (translationRequest r) = Rejected reason) /\
  (selectedSentence r <> EmptyString ->
   (logsOf (trace (run w st (handleGenerateTree r))) <> [] <->
    exists reason, settle w (treeRequest r) = Rejected reason)).
Proof.
  split.
  - rewrite run_handleSubmit. cbv zeta.
    destruct (settle w (translationRequest r)) as [response|reason]; simpl.
    + split; [congruence | intros [reason H]; discriminate].
    + split; [now exists reason | discriminate].
  - intros Hsel. rewrite run_handleGenerateTree by exact Hsel. cbv zeta.
    destruct (settle w (treeRequest r)) as [response|reason]; simpl.
    + split; [congruence | intros [reason H]; discriminate].
    + split; [now exists reason | discriminate].
Qed.

(** X11. With no results the download does nothing at all: no element, no
    object URL, no click, and the state as it was. *)
Theorem handleDownloadResults_no_results (w : World) (r st : AppState) :
  results r = None ->
  trace (run w st (handleDownloadResults r)) = [] /\
  final (run w st (handleDownloadResults r)) = st.
Proof.
  intros Hnone. rewrite run_handleDownloadResults, Hnone. now split.
Qed.

Lemma anchorEqb_refl (link : Anchor) : anchorEqb link link = true.
Proof. unfold anchorEqb. now rewrite !String.eqb_refl. Qed.

(** X12. The download never writes a state cell and never writes to the
    console.  The link it makes is in the document when it is clicked, and
    is taken out after the click: when the handler is done, no link of its
    run is left in the document. *)
Theorem handleDownloadResults_frame (w : World) (r st : AppState) :
  let out := run w st (handleDownloadResults r) in
  final out = st /\
  updatesOf (trace out) = [] /\
  logsOf (trace out) = [] /\
  usedWhileAttached [] (trace out) /\
  linksAttached (trace out) = [].
Proof.
  cbv zeta. rewrite run_handleDownloadResults.
  destruct (results r) as [res|]; cbv zeta; repeat split;
    try (simpl; now left).
  unfold linksAttached. cbn -[anchorEqb]. now rewrite anchorEqb_refl.
Qed.

(** ** The view and its use *)

Lemma controls_rows (index : nat) (infos : list WordInfo)
    (row : WordInfo -> nat -> Node) :
  (forall info i, controls (row info i) = []) ->
  flat_map controls (mapWithIndex row index infos) = [].
Proof.
  intros Hrow. revert index.
  induction infos as [|info infos IH]; intros index; simpl; [reflexivity|].
  now rewrite Hrow, IH.
Qed.

Lemma controls_renderWordsTable (infos : list WordInfo) :
  controls (renderWordsTable infos) = [].
Proof.
  unfold renderWordsTable. cbn [controls isDisabled propOf listenersOf flat_map
    String.eqb Ascii.eqb Bool.eqb snd fst app].
  rewrite controls_rows; [reflexivity|]. reflexivity.
Qed.

Lemma controls_radios (index : nat) (l : list string) :
  flat_map controls
    (mapWithIndex
       (fun sentence i =>
          Element "li"
            [("key", PNumber i);
             ("style", PStyle [("marginBottom", "5px")])]
            [ Element "label" []
                [ Element "input"
                    [("type", PString "radio");
                     ("name", PString "sentence");
                     ("value", PString sentence);
                     ("onChange",
                      PListener (fun _ => setSelectedSentence sentence));
                     ("style", PStyle [("marginRight", "10px")])]
                    [];
                  TextNode sentence ] ])
       index l) =
  map radioControl l.
Proof.
  revert index. induction l as [|x l IH]; intros index; [reflexivity|].
  cbn [mapWithIndex flat_map map]. rewrite IH. reflexivity.
Qed.

Lemma controls_renderSentences (l : list string) :
  controls (renderSentences l) = map radioControl l.
Proof.
  destruct l as [|x l]; [reflexivity|].
  unfold renderSentences.
  cbn [controls isDisabled propOf listenersOf flat_map
    String.eqb Ascii.eqb Bool.eqb snd fst app].
  rewrite controls_radios. cbn [app]. now rewrite List.app_nil_r.
Qed.

(** The controls a view offers: the form and its text area; with results, a
    radio button per sentence and the download button; and the tree button
    unless it is disabled. *)
Lemma controls_render (r : AppState) :
  controls (render r) =
  (submitControl r :: textControl ::
   match results r with
   | None => []
   | Some _ => map radioControl (sentences r) ++ [downloadControl r]
   end ++
   (if isFalsy (selectedSentence r) || treeLoading r then []
    else [generateControl r]))%list.
Proof.
  unfold render.
  destruct (loading r), (results r) as [res|], (syntaxTree r) as [u|];
    try destruct (isFalsy u);
    destruct (isFalsy (selectedSentence r)), (treeLoading r);
    cbn [controls isDisabled propOf listenersOf flat_map orb
         String.eqb Ascii.eqb Bool.eqb snd fst app];
    rewrite ?controls_renderWordsTable, ?controls_renderSentences;
    cbn [app]; rewrite ?List.app_nil_r; reflexivity.
Qed.

Lemma In_controls_render (r : AppState) (c : Control) :
  In c (controls (render r)) ->
  c = submitControl r \/
  c = textControl \/
  (exists sentence,
     In sentence (sentences r) /\ results r <> None /\
     c = radioControl sentence) \/
  (c = downloadControl r /\ results r <> None) \/
  (c = generateControl r /\
   selectedSentence r <> EmptyString /\ treeLoading r = false).
Proof.
  rewrite controls_render. intros [<-|[<-|Hin]]; [now left | now right; left|].
  right; right. apply in_app_or in Hin. destruct Hin as [Hin|Hin].
  - destruct (results r) as [res|] eqn:Hres; [|destruct Hin].
    apply in_app_or in Hin. destruct Hin as [Hin|[<-|[]]].
    + left. apply in_map_iff in Hin. destruct Hin as (sentence & <- & Hin).
      exists sentence. repeat split; [exact Hin | discriminate].
    + right; left. split; [reflexivity | discriminate].
  - right; right.
    destruct (selectedSentence r) as [|x sel]; [destruct Hin|].
    destruct (treeLoading r); [destruct Hin|].
    destruct Hin as [<-|[]]. repeat split. discriminate.
Qed.

Lemma settled_initial : settled initialState.
Proof.
  repeat split; [now exists EmptyString | now left].
Qed.

Lemma settled_control (st : AppState) (c : Control) (w : World) (e : DomEvent) :
  settled st ->
  In c (controls (render st)) ->
  settled (final (run w st (controlListener c e))).
Proof.
  intros (Hload & Htree & Hsent & Hsel) Hin.
  apply In_controls_render in Hin.
  destruct Hin as [->|[->|[(sentence & Hin & _ & ->)|[[-> _]|(-> & Hne & _)]]]];
    cbn [controlListener submitControl textControl radioControl
         downloadControl generateControl].
  - rewrite run_handleSubmit. cbv zeta.
    destruct (settle w (translationRequest st)); cbn.
    + repeat split; [exact Htree | now exists (inputText st) | exact Hsel].
    + repeat split; assumption.
  - cbn. repeat split; assumption.
  - cbn. repeat split; try assumption. right.
    destruct Hsent as [submitted Hsent]. exists submitted.
    now rewrite <- Hsent.
  - rewrite run_handleDownloadResults.
    destruct (results st); cbn; repeat split; assumption.
  - rewrite run_handleGenerateTree by exact Hne. cbv zeta.
    destruct (settle w (treeRequest st)); cbn; repeat split; assumption.
Qed.

Lemma settled_interact (st : AppState) (i : Interaction) :
  settled st -> settled (interact st i).
Proof.
  intros Hst. unfold interact.
  destruct (nth_error (controls (render st)) (target i)) as [c|] eqn:E;
    [|exact Hst].
  apply settled_control; [exact Hst|]. now apply nth_error_In in E.
Qed.

Lemma settled_session (interactions : list Interaction) :
  settled (session interactions).
Proof.
  unfold session. generalize settled_initial. generalize initialState.
  induction interactions as [|i interactions IH]; intros st Hst;
    [exact Hst|].
  simpl. apply IH. now apply settled_interact.
Qed.

Lemma settled_selected (st : AppState) :
  settled st ->
  selectedSentence st <> EmptyString ->
  clauseWithEnd (selectedSentence st).
Proof.
  intros (_ & _ & _ & [Hsel|[submitted Hsel]]) Hne; [congruence|].
  now apply (Sentences_elements (Sentences_split submitted)).
Qed.

Lemma clauseWithEnd_nonempty (x : string) : clauseWithEnd x -> x <> EmptyString.
Proof.
  intros (clause & ending & -> & Hne & _).
  destruct clause; [congruence | discriminate].
Qed.

(** X13. The download button is in the view only with results at hand: a
    click on it always saves the file, so the handler's guard against
    missing results is never what a click ends in. *)
Theorem download_button_saves
    (st : AppState) (c : Control) (w : World) (e : DomEvent) :
  In c (controls (render st)) ->
  controlLabel c = "Download Results" ->
  exists res,
    results st = Some res /\
    savesFile w (trace (run w st (controlListener c e)))
      "translation_results.txt"
      {| blobParts := [TextPart (fileContentOf res)];
         blobType := "text/plain;charset=utf-8" |}.
Proof.
  intros Hin Hlabel. apply In_controls_render in Hin.
  destruct Hin as [->|[->|[(sentence & _ & _ & ->)|[[-> Hres]|(-> & _)]]]];
    try discriminate Hlabel.
  destruct (results st) as [res|] eqn:E; [|congruence].
  exists res. split; [reflexivity|].
  cbn [controlListener downloadControl]. rewrite run_handleDownloadResults, E.
  unfold savesFile. cbn [trace]. simpl. auto 6.
Qed.

(** X14. The tree button, whichever of its two labels it shows, can be
    clicked only with a sentence selected and no tree request pending, for
    it is disabled otherwise: a click on it always sends exactly one
    request, for the selected sentence. *)
Theorem generate_button_requests
    (st : AppState) (c : Control) (w : World) (e : DomEvent) :
  In c (controls (render st)) ->
  controlLabel c = "Generate Syntax Tree" \/
  controlLabel c = "Generating Tree..." ->
  selectedSentence st <> EmptyString /\
  treeLoading st = false /\
  requestsOf (trace (run w st (controlListener c e))) = [treeRequest st].
Proof.
  intros Hin Hlabel. apply In_controls_render in Hin.
  destruct Hin
    as [->|[->|[(sentence & _ & _ & ->)|[[-> _]|(-> & Hne & Htree)]]]];
    try (destruct Hlabel as [Hlabel|Hlabel]; discriminate Hlabel).
  split; [exact Hne|]. split; [exact Htree|].
  cbn [controlListener generateControl].
  rewrite run_handleGenerateTree by exact Hne. cbv zeta.
  destruct (settle w (treeRequest st)); reflexivity.
Qed.

(** X15. Between interactions nothing is loading: after any sequence of
    interactions, each run to its end, [loading] and [treeLoading] are
    false, so the tree button is enabled exactly when a sentence is
    selected. *)
Theorem session_not_loading (interactions : list Interaction) :
  let st := session interactions in
  loading st = false /\
  treeLoading st = false /\
  (In (generateControl st) (controls (render st)) <->
   selectedSentence st <> EmptyString).
Proof.
  cbv zeta. destruct (settled_session interactions) as (Hload & Htree & _).
  repeat split; [exact Hload | exact Htree | |].
  - intros Hin. apply In_controls_render in Hin.
    destruct Hin as [H|[H|[(sentence & _ & _ & H)|[[H _]|(_ & Hne & _)]]]];
      try discriminate H.
    exact Hne.
  - intros Hne. rewrite controls_render, Htree.
    rewrite isFalsy_nonempty by exact Hne.
    right; right. apply in_or_app. right. now left.
Qed.

(** X16. After any sequence of interactions, every sentence on offer is one
    the splitter cut from a submitted text, and so is the selected sentence
    when there is one: a non-empty piece that starts with none of ['.'],
    ['!'], ['?']. *)
Theorem session_sentences (interactions : list Interaction) (x : string) :
  let st := session interactions in
  In x (sentences st) \/ (x = selectedSentence st /\ x <> EmptyString) ->
  clauseWithEnd x /\ splitIntoSentences x = [x].
Proof.
  cbv zeta. intros Hx.
  assert (Hclause : clauseWithEnd x).
  { pose proof (settled_session interactions) as Hst.
    destruct Hx as [Hin|[-> Hne]].
    - destruct Hst as (_ & _ & [submitted Hsent] & _). rewrite Hsent in Hin.
      now apply (Sentences_elements (Sentences_split submitted)).
    - now apply settled_selected. }
  split; [exact Hclause | now apply clauseWithEnd_split].
Qed.

(** X17. Selecting and then generating: after any sequence of interactions,
    a change of any radio button selects a sentence on offer, and a tree
    generation after it sends exactly one request, with that sentence as its
    text. *)
Theorem select_then_generate
    (interactions : list Interaction) (c : Control) (w w' : World)
    (e : DomEvent) :
  let st := session interactions in
  In c (controls (render st)) ->
  controlTag c = "input" ->
  let st' := final (run w st (controlListener c e)) in
  In (selectedSentence st') (sentences st) /\
  requestsOf (trace (run w' st' (handleGenerateTree st'))) =
    [ {| url := apiOrigin ++ "/api/v0/tree";
         body := {| text := selectedSentence st' |};
         responseType := ArrayBufferResponse |} ].
Proof.
  cbv zeta. intros Hin Htag.
  pose proof (settled_session interactions) as Hst.
  apply In_controls_render in Hin.
  destruct Hin as [->|[->|[(sentence & Hin & _ & ->)|[[-> _]|(-> & _)]]]];
    try discriminate Htag.
  cbn [controlListener radioControl].
  set (st := session interactions) in *.
  assert (Hne : sentence <> EmptyString).
  { apply clauseWithEnd_nonempty.
    destruct Hst as (_ & _ & [submitted Hsent] & _). rewrite Hsent in Hin.
    now apply (Sentences_elements (Sentences_split submitted)). }
  split; [exact Hin|].
  rewrite run_handleGenerateTree by exact Hne. cbv zeta.
  match goal with |- context [settle w' ?rq] => destruct (settle w' rq) end;
    reflexivity.
Qed.

(** X18. Typing and then submitting: a change of the text area writes the
    typed text to [inputText] and to no other cell, and a submission after
    it posts exactly that text. *)
Theorem type_then_submit
    (st : AppState) (c : Control) (w w' : World) (e : DomEvent) :
  In c (controls (render st)) ->
  controlTag c = "textarea" ->
  let st' := final (run w st (controlListener c e)) in
  st' = applyUpdate (SetInputText (targetValue e)) st /\
  requestsOf (trace (run w' st' (handleSubmit st'))) =
    [ {| url := apiOrigin ++ "/api/v0/translation";
         body := {| text := targetValue e |};
         responseType := JsonResponse |} ].
Proof.
  cbv zeta. intros Hin Htag. apply In_controls_render in Hin.
  destruct Hin as [->|[->|[(sentence & _ & _ & ->)|[[-> _]|(-> & _)]]]];
    try discriminate Htag.
  cbn [controlListener textControl]. split; [reflexivity|].
  rewrite run_handleSubmit. cbv zeta.
  match goal with |- context [settle w' ?rq] => destruct (settle w' rq) end;
    reflexivity.
Qed.

Lemma flat_map_rows {A : Type} (query : Node -> list Node) (found : A -> list Node)
    (row : A -> nat -> Node) (index : nat) (l : list A) :
  (forall x i, query (row x i) = found x) ->
  flat_map query (mapWithIndex row index l) = flat_map found l.
Proof.
  intros Hrow. revert index.
  induction l as [|x l IH]; intros index; simpl; [reflexivity|].
  now rewrite Hrow, IH.
Qed.

Lemma length_flat_map_rows {A : Type} (query : Node -> list Node)
    (row : A -> nat -> Node) (index : nat) (l : list A) :
  (forall x i, List.length (query (row x i)) = 1) ->
  List.length (flat_map query (mapWithIndex row index l)) = List.length l.
Proof.
  intros Hrow. revert index.
  induction l as [|x l IH]; intros index; simpl; [reflexivity|].
  now rewrite length_app, Hrow, IH.
Qed.

Lemma map_flat_map {A B C : Type} (f : B -> C) (g : A -> list B) (l : list A) :
  map f (flat_map g l) = flat_map (fun x => map f (g x)) l.
Proof.
  induction l as [|x l IH]; simpl; [reflexivity|].
  now rewrite map_app, IH.
Qed.

Lemma flat_map_ext_eq {A B : Type} (f g : A -> list B) (l : list A) :
  (forall x, f x = g x) -> flat_map f l = flat_map g l.
Proof.
  intros H. induction l as [|x l IH]; simpl; [reflexivity|].
  now rewrite H, IH.
Qed.

Lemma flat_map_nil {A B : Type} (l : list A) :
  flat_map (fun _ : A => @nil B) l = [].
Proof. induction l; simpl; congruence. Qed.

Lemma flat_map_singleton {A B : Type} (f : A -> B) (l : list A) :
  flat_map (fun x => [f x]) l = map f l.
Proof. induction l as [|x l IH]; simpl; [reflexivity | now rewrite IH]. Qed.

Ltac query_by_tag :=
  cbn [elementsByTag String.eqb Ascii.eqb Bool.eqb flat_map app].

Lemma table_cells (wordsInfo : list WordInfo) :
  map textContent (elementsByTag "td" (renderWordsTable wordsInfo)) =
  flat_map (fun info => [ToString (word info); ToString (freq info);
                         ToString (gram_info info)]) wordsInfo.
Proof.
  unfold renderWordsTable. query_by_tag.
  rewrite flat_map_rows
    with (found := fun info =>
            [ Element "td" [("style", PStyle [("padding", "10px")])]
                [ValueNode (word info)];
              Element "td" [("style", PStyle [("padding", "10px")])]
                [ValueNode (freq info)];
              Element "td" [("style", PStyle [("padding", "10px")])]
                [ValueNode (gram_info info)] ])
    by reflexivity.
  rewrite List.app_nil_r, map_flat_map. apply flat_map_ext_eq.
  intros info. simpl. now rewrite !append_nil_r.
Qed.

Lemma table_without (tag : string) (wordsInfo : list WordInfo) :
  String.eqb "table" tag = false -> String.eqb "thead" tag = false ->
  String.eqb "tbody" tag = false -> String.eqb "tr" tag = false ->
  String.eqb "th" tag = false -> String.eqb "td" tag = false ->
  elementsByTag tag (renderWordsTable wordsInfo) = [].
Proof.
  intros Htable Hthead Htbody Htr Hth Htd. unfold renderWordsTable.
  cbn [elementsByTag flat_map app].
  rewrite Htable, Hthead, Htbody, Htr, Hth. cbn [app].
  rewrite flat_map_rows with (found := fun _ => []).
  - now rewrite flat_map_nil.
  - intros info i. cbn [elementsByTag flat_map app]. now rewrite Htr, Htd.
Qed.

Lemma sentences_inputs (l : list string) :
  map (fun i => propOf "value" (propsOf i))
    (elementsByTag "input" (renderSentences l)) =
  map (fun sentence => Some (PString sentence)) l.
Proof.
  destruct l as [|x l]; [reflexivity|].
  unfold renderSentences. query_by_tag.
  rewrite flat_map_rows
    with (found := fun sentence =>
            [ Element "input"
                [("type", PString "radio");
                 ("name", PString "sentence");
                 ("value", PString sentence);
                 ("onChange",
                  PListener (fun _ => setSelectedSentence sentence));
                 ("style", PStyle [("marginRight", "10px")])]
                [] ])
    by reflexivity.
  rewrite List.app_nil_r, flat_map_singleton, map_map. reflexivity.
Qed.

Lemma sentences_without (tag : string) (l : list string) :
  String.eqb "div" tag = false -> String.eqb "h3" tag = false ->
  String.eqb "ul" tag = false -> String.eqb "li" tag = false ->
  String.eqb "label" tag = false -> String.eqb "input" tag = false ->
  elementsByTag tag (renderSentences l) = [].
Proof.
  intros Hdiv Hh3 Hul Hli Hlabel Hinput.
  destruct l as [|x l]; [reflexivity|]. unfold renderSentences.
  cbn [elementsByTag flat_map app]. rewrite Hdiv, Hh3, Hul. cbn [app].
  rewrite flat_map_rows with (found := fun _ => []).
  - now rewrite flat_map_nil.
  - intros sentence i. cbn [elementsByTag flat_map app].
    now rewrite Hli, Hlabel, Hinput.
Qed.

(** X19. The table of a word list has the header [Word], [Frequency],
    [Grammatical Info] and one body row per entry, in order: read cell by
    cell, the body shows the word, the frequency and the grammatical
    information of each entry. *)
Theorem renderWordsTable_cells (wordsInfo : list WordInfo) :
  map textContent (elementsByTag "th" (renderWordsTable wordsInfo)) =
    ["Word"; "Frequency"; "Grammatical Info"] /\
  map textContent (elementsByTag "td" (renderWordsTable wordsInfo)) =
    flat_map (fun info => [ToString (word info); ToString (freq info);
                           ToString (gram_info info)]) wordsInfo /\
  List.length (elementsByTag "tr" (renderWordsTable wordsInfo)) =
    S (List.length wordsInfo).
Proof.
  unfold renderWordsTable. repeat split.
  - cbn [elementsByTag String.eqb Ascii.eqb Bool.eqb flat_map app].
    rewrite flat_map_rows with (found := fun _ => []) by reflexivity.
    replace (flat_map (fun _ : WordInfo => @nil Node) wordsInfo)
      with (@nil Node) by (induction wordsInfo; simpl; congruence).
    reflexivity.
  - apply table_cells.
  - cbn [elementsByTag String.eqb Ascii.eqb Bool.eqb flat_map app].
    rewrite List.app_nil_r. cbn [List.length app]. f_equal.
    now apply length_flat_map_rows.
Qed.

(** X20. The view offers one radio button per sentence, in order, each with
    its sentence as value, and only with results at hand: without results
    there is no radio button at all. *)
Theorem render_radio_buttons (r : AppState) :
  map (fun i => propOf "value" (propsOf i)) (elementsByTag "input" (render r)) =
  match results r with
  | None => []
  | Some _ => map (fun sentence => Some (PString sentence)) (sentences r)
  end.
Proof.
  unfold render.
  destruct (loading r), (results r) as [res|], (syntaxTree r) as [u|];
    try destruct (isFalsy u);
    query_by_tag;
    rewrite ?table_without by reflexivity;
    cbn [app]; rewrite ?List.app_nil_r;
    try reflexivity; apply sentences_inputs.
Qed.

(** X21. What a successful submission shows: rendered from the state the
    handler ends in, the cells of the view are the words, frequencies and
    grammatical information of the response, the original text's entries
    first and the translated text's after. *)
Theorem submitted_results_shown
    (w : World) (r st : AppState) (response : Response TranslationData) :
  settle w (translationRequest r) = Fulfilled response ->
  let cells := fun info => [ToString (word info); ToString (freq info);
                            ToString (gram_info info)] in
  map textContent
    (elementsByTag "td" (render (final (run w st (handleSubmit r))))) =
  (flat_map cells (words_info (original_text_analysis (data response))) ++
   flat_map cells (words_info (translated_text_analysis (data response))))%list.
Proof.
  intros Hok. cbv zeta. rewrite run_handleSubmit. cbv zeta. rewrite Hok.
  unfold render. cbn [final applyUpdate loading results syntaxTree sentences].
  query_by_tag.
  rewrite sentences_without by reflexivity.
  cbn [app]. rewrite ?List.app_nil_r, map_app, !table_cells. reflexivity.
Qed.

(** X22. What a successful tree generation shows: rendered from the state
    the handler ends in, the view has exactly one image, and its source is
    the object URL of the PNG blob made from the response. *)
Theorem generated_tree_shown
    (w : World) (r st : AppState) (response : Response (list byte)) :
  selectedSentence r <> EmptyString ->
  settle w (treeRequest r) = Fulfilled response ->
  let blob := {| blobParts := [BufferPart (data response)];
                 blobType := "image/png" |} in
  objectURL w blob <> EmptyString ->
  map (fun i => propOf "src" (propsOf i))
    (elementsByTag "img" (render (final (run w st (handleGenerateTree r))))) =
  [Some (PString (objectURL w blob))].
Proof.
  intros Hsel Hok. cbv zeta. intros Hurl.
  rewrite run_handleGenerateTree by exact Hsel. cbv zeta. rewrite Hok.
  unfold render. cbn [final]. cbv [applyUpdate].
  cbn [inputText results syntaxTree selectedSentence sentences loading
       treeLoading].
  pose proof (isFalsy_nonempty Hurl) as Hshown.
  match goal with
  | |- context [if isFalsy ?u then _ else _] =>
      replace (isFalsy u) with false by (symmetry; exact Hshown)
  end.
  destruct (loading st), (results st) as [res|];
    query_by_tag;
    rewrite ?table_without by reflexivity;
    rewrite ?sentences_without by reflexivity;
    reflexivity.
Qed.

End App.

Arguments Rejected {D} reason.
Arguments Throw {JsValue A} error.
Arguments Threw {A} error.

(** ** The properties at concrete inputs

    Response leaves are strings here, and [ToString] leaves a string as it
    is. *)

Local Abbreviation sampleOriginal :=
  {| words_count := "2";
     words_info := [ {| word := "hello"; freq := "1"; gram_info := "INTJ" |};
                     {| word := "world"; freq := "1"; gram_info := "NOUN" |} ] |}.

Local Abbreviation sampleTranslated :=
  {| words_count := "1";
     words_info := [ {| word := "Hallo"; freq := "1"; gram_info := "INTJ" |} ] |}.

Local Abbreviation sampleData :=
  {| original_text := "hello world.";
     original_text_analysis := sampleOriginal;
     translated_text := "Hallo.";
     translated_text_analysis := sampleTranslated |}.

Local Abbreviation typedState :=
  {| inputText := "Hello world. How are you? Fine!";
     results := None; syntaxTree := None; selectedSentence := "";
     sentences := []; loading := false; treeLoading := false |}.

Local Abbreviation shownState :=
  {| inputText := "hello world.";
     results := Some sampleData;
     syntaxTree := Some "blob:http://localhost:3000/7";
     selectedSentence := "hello world.";
     sentences := ["hello world."]; loading := false; treeLoading := false |}.

Local Abbreviation sampleImage := [x89; x50; x4e; x47].

Example fileContentOf_sample :
  fileContentOf (fun s : string => s) sampleData =
  "Translation Results


Original Text:
hello world.

Original Text Analysis:
Words Count: 2
Words Info:
  - Word: hello, Frequency: 1, Grammatical Info: INTJ
  - Word: world, Frequency: 1, Grammatical Info: NOUN

Translated Text:
Hallo.

Translated Text Analysis:
Words Count: 1
Words Info:
  - Word: Hallo, Frequency: 1, Grammatical Info: INTJ
".
Proof. vm_compute. reflexivity. Qed.

Example handleSubmit_success_sample :
  let out := run (answeringWorld sampleData sampleImage) typedState
               (handleSubmit typedState) in
  final out =
    {| inputText := "Hello world. How are you? Fine!";
       results := Some sampleData; syntaxTree := None; selectedSentence := "";
       sentences := ["Hello world."; " How are you?"; " Fine!"];
       loading := false; treeLoading := false |} /\
  List.length (trace out) = 8.
Proof. vm_compute. split; reflexivity. Qed.

Example handleGenerateTree_success_sample :
  let out := run (answeringWorld sampleData sampleImage) shownState
               (handleGenerateTree shownState) in
  syntaxTree (final out) = Some "blob:http://localhost:3000/0" /\
  treeLoading (final out) = false /\
  List.length (trace out) = 6.
Proof. vm_compute. repeat split; reflexivity. Qed.

(** C2, the claim as it was stated, refuted: the sentence ends a text starts
    with are in no sentence, so joining the sentences does not give them
    back. *)
Lemma join_splitIntoSentences_loses_leading_ends :
  splitIntoSentences "...Wait. What?" = ["Wait."; " What?"] /\
  join (splitIntoSentences "...Wait. What?") <> "...Wait. What?".
Proof. split; [vm_compute; reflexivity | vm_compute; discriminate]. Qed.

Lemma join_splitIntoSentences_witness :
  startsWith isSentenceEnd "Wait. What?" = false /\
  join (splitIntoSentences "Wait. What?") = "Wait. What?".
Proof.
  split; [reflexivity|].
  apply (proj2 (join_splitIntoSentences "Wait. What?")). reflexivity.
Defined.

Lemma splitIntoSentences_elements_witness :
  In " What?" (splitIntoSentences "Wait. What?") /\
  substringOf " What?" "Wait. What?" /\
  clauseWithEnd " What?" /\
  startsWith isSentenceEnd " What?" = false.
Proof.
  assert (Hin : In " What?" (splitIntoSentences "Wait. What?"))
    by (vm_compute; auto).
  split; [exact Hin|].
  exact (splitIntoSentences_elements "Wait. What?" " What?" Hin).
Defined.

Lemma splitIntoSentences_only_ends_witness :
  allChars isSentenceEnd "?!..." = true /\
  String_match "?!..." sentencePattern = JsNull /\
  splitIntoSentences "?!..." = [].
Proof.
  split; [reflexivity|].
  apply (splitIntoSentences_only_ends "?!..."). reflexivity.
Defined.


Lemma handlers_one_request_witness :
  let w := answeringWorld sampleData sampleImage in
  selectedSentence shownState <> EmptyString /\
  requestsOf (trace (run w shownState (handleGenerateTree shownState))) =
    [ {| url := "http://localhost:8000/api/v0/tree";
         body := {| text := "hello world." |};
         responseType := ArrayBufferResponse |} ] /\
  requestsOf (trace (run w shownState (handleSubmit shownState))) =
    [ {| url := "http://localhost:8000/api/v0/translation";
         body := {| text := "hello world." |};
         responseType := JsonResponse |} ].
Proof.
  cbv zeta.
  assert (Hsel : selectedSentence shownState <> EmptyString) by discriminate.
  pose proof (handlers_one_request (fun s : string => s)
                (answeringWorld sampleData sampleImage) shownState shownState)
    as (Hsubmit & Htree & _).
  split; [exact Hsel|]. split; [exact (Htree Hsel) | exact Hsubmit].
Defined.

Lemma handleSubmit_replaces_results_witness :
  let w := answeringWorld sampleData sampleImage in
  let out := run w shownState (handleSubmit typedState) in
  settle w (translationRequest (JsValue:=string) typedState) =
    Fulfilled {| data := sampleData |} /\
  results (final out) = Some sampleData /\
  sentences (final out) = ["Hello world."; " How are you?"; " Fine!"].
Proof.
  cbv zeta.
  pose proof (proj2 (handleSubmit_replaces_results
                       (answeringWorld sampleData sampleImage)
                       typedState shownState)
                {| data := sampleData |} eq_refl) as H.
  split; [reflexivity | exact H].
Defined.

Lemma handleDownloadResults_file_witness :
  let w := answeringWorld sampleData sampleImage in
  let out := run w shownState (handleDownloadResults (fun s => s) shownState) in
  results shownState = Some sampleData /\
  Forall noLineFeed (fileLines (fun s => s) sampleData) /\
  savesFile w (trace out) "translation_results.txt"
    {| blobParts := [TextPart (fileContentOf (fun s => s) sampleData)];
       blobType := "text/plain;charset=utf-8" |} /\
  linesOf (fileContentOf (fun s => s) sampleData) =
    [ "Translation Results";
      "";
      "";
      "Original Text:";
      "hello world.";
      "";
      "Original Text Analysis:";
      "Words Count: 2";
      "Words Info:";
      "  - Word: hello, Frequency: 1, Grammatical Info: INTJ";
      "  - Word: world, Frequency: 1, Grammatical Info: NOUN";
      "";
      "Translated Text:";
      "Hallo.";
      "";
      "Translated Text Analysis:";
      "Words Count: 1";
      "Words Info:";
      "  - Word: Hallo, Frequency: 1, Grammatical Info: INTJ";
      "" ].
Proof.
  cbv zeta.
  assert (Hlines : Forall noLineFeed (fileLines (fun s => s) sampleData))
    by (repeat constructor).
  destruct (handleDownloadResults_file (fun s : string => s)
              (answeringWorld sampleData sampleImage)
              shownState shownState eq_refl)
    as (Hsaved & _ & Hread & _).
  split; [reflexivity|]. split; [exact Hlines|].
  split; [exact Hsaved | exact (Hread Hlines)].
Defined.

Lemma handleGenerateTree_failure_witness :
  let w := failingWorld NetworkError in
  let out := run w shownState (handleGenerateTree shownState) in
  selectedSentence shownState <> EmptyString /\
  settle w (treeRequest shownState) = Rejected NetworkError /\
  syntaxTree (final out) = None /\
  treeLoading (final out) = false /\
  logsOf (trace out) =
    [("Error during tree generation API call:", NetworkError)].
Proof.
  cbv zeta.
  assert (Hsel : selectedSentence shownState <> EmptyString) by discriminate.
  pose proof (@handleGenerateTree_failure string (failingWorld NetworkError)
                shownState shownState NetworkError Hsel eq_refl) as H.
  cbv zeta in H. destruct H as (_ & Hlog & _ & Htree & Hload).
  split; [exact Hsel|]. split; [reflexivity|].
  split; [exact Htree|]. split; [exact Hload | exact Hlog].
Defined.

Lemma handleGenerateTree_nothing_selected_witness :
  let w := answeringWorld sampleData sampleImage in
  let out := run w typedState (handleGenerateTree typedState) in
  selectedSentence (JsValue:=string) typedState = EmptyString /\
  trace out = [] /\
  final out = typedState.
Proof.
  cbv zeta.
  pose proof (@handleGenerateTree_nothing_selected string
                (answeringWorld sampleData sampleImage)
                typedState typedState eq_refl) as H.
  cbv zeta in H. destruct H as (Htrace & _ & _ & Hfinal & _).
  split; [reflexivity|]. split; [exact Htrace | exact Hfinal].
Defined.

(** *** The further properties at concrete inputs *)

Local Abbreviation asIs := (fun s : string => s).

Local Abbreviation sampleWorld := (answeringWorld sampleData sampleImage).

Local Abbreviation sampleSession :=
  [ {| target := 1; payload := {| targetValue := "Wait. What?" |};
       world := sampleWorld |};
    {| target := 0; payload := {| targetValue := "" |};
       world := sampleWorld |} ].

Example session_sample :
  session asIs sampleSession =
  {| inputText := "Wait. What?"; results := Some sampleData;
     syntaxTree := None; selectedSentence := "";
     sentences := ["Wait."; " What?"]; loading := false;
     treeLoading := false |}.
Proof. vm_compute. reflexivity. Qed.

Example controls_sample :
  map (fun c => (controlTag c, controlLabel c, controlEvent c))
    (controls asIs (render asIs shownState)) =
  [ ("form", "Process Text", "onSubmit");
    ("textarea", "", "onChange");
    ("input", "", "onChange");
    ("button", "Download Results", "onClick");
    ("button", "Generate Syntax Tree", "onClick") ].
Proof. vm_compute. reflexivity. Qed.

Lemma splitIntoSentences_resplit_witness :
  In " What?" (splitIntoSentences "Wait. What?") /\
  splitIntoSentences " What?" = [" What?"].
Proof.
  assert (Hin : In " What?" (splitIntoSentences "Wait. What?"))
    by (vm_compute; auto).
  split; [exact Hin|].
  exact (splitIntoSentences_resplit "Wait. What?" " What?" Hin).
Defined.

Lemma splitIntoSentences_append_witness :
  endsWith isSentenceEnd "Wait." = true /\
  startsWith isSentenceEnd " What?" = false /\
  splitIntoSentences ("Wait." ++ " What?") =
  (splitIntoSentences "Wait." ++ splitIntoSentences " What?")%list.
Proof.
  split; [reflexivity|]. split; [reflexivity|].
  exact (splitIntoSentences_append "Wait." " What?" eq_refl eq_refl).
Defined.

Lemma splitIntoSentences_inner_closed_witness :
  splitIntoSentences "Wait. What? Now" =
    ([] ++ "Wait." :: " What?" :: [" Now"])%list /\
  endsWith isSentenceEnd "Wait." = true.
Proof.
  assert (H : splitIntoSentences "Wait. What? Now" =
              ([] ++ "Wait." :: " What?" :: [" Now"])%list)
    by (vm_compute; reflexivity).
  split; [exact H|].
  exact (splitIntoSentences_inner_closed "Wait. What? Now" [] "Wait."
           " What?" [" Now"] H).
Defined.


Lemma handleGenerateTree_success_witness :
  let out := run sampleWorld shownState (handleGenerateTree shownState) in
  selectedSentence shownState <> EmptyString /\
  settle sampleWorld (treeRequest shownState) =
    Fulfilled {| data := sampleImage |} /\
  syntaxTree (final out) = Some "blob:http://localhost:3000/0" /\
  logsOf (trace out) = [].
Proof.
  cbv zeta.
  assert (Hsel : selectedSentence shownState <> EmptyString) by discriminate.
  pose proof (@handleGenerateTree_success string sampleWorld shownState
                shownState {| data := sampleImage |} Hsel eq_refl) as H.
  cbv zeta in H. destruct H as (Hfinal & Hlog & _).
  split; [exact Hsel|]. split; [reflexivity|].
  split; [now rewrite Hfinal | exact Hlog].
Defined.

Lemma console_iff_failure_witness :
  let w := failingWorld (BadStatus 503) in
  selectedSentence shownState <> EmptyString /\
  (logsOf (trace (run w shownState (handleGenerateTree shownState))) <> [] <->
   exists reason, settle w (treeRequest shownState) = Rejected reason).
Proof.
  cbv zeta.
  assert (Hsel : selectedSentence shownState <> EmptyString) by discriminate.
  split; [exact Hsel|].
  exact (proj2 (console_iff_failure (failingWorld (BadStatus 503))
                  shownState shownState) Hsel).
Defined.

Lemma handleDownloadResults_no_results_witness :
  results (JsValue:=string) typedState = None /\
  trace (run sampleWorld typedState (handleDownloadResults asIs typedState)) =
    [] /\
  final (run sampleWorld typedState (handleDownloadResults asIs typedState)) =
    typedState.
Proof.
  split; [reflexivity|].
  exact (handleDownloadResults_no_results asIs sampleWorld typedState
           typedState eq_refl).
Defined.

Lemma download_button_saves_witness :
  let e := {| targetValue := "" |} in
  let c := downloadControl asIs shownState in
  In c (controls asIs (render asIs shownState)) /\
  controlLabel c = "Download Results" /\
  exists res,
    results shownState = Some res /\
    savesFile sampleWorld
      (trace (run sampleWorld shownState (controlListener c e)))
      "translation_results.txt"
      {| blobParts := [TextPart (fileContentOf asIs res)];
         blobType := "text/plain;charset=utf-8" |}.
Proof.
  cbv zeta.
  assert (Hin : In (downloadControl asIs shownState)
                  (controls asIs (render asIs shownState)))
    by (rewrite controls_render; simpl; auto 6).
  split; [exact Hin|]. split; [reflexivity|].
  exact (@download_button_saves string asIs shownState
           (downloadControl asIs shownState) sampleWorld
           {| targetValue := "" |} Hin eq_refl).
Defined.

Lemma generate_button_requests_witness :
  let e := {| targetValue := "" |} in
  let c := generateControl shownState in
  In c (controls asIs (render asIs shownState)) /\
  controlLabel c = "Generate Syntax Tree" /\
  requestsOf (trace (run sampleWorld shownState (controlListener c e))) =
    [ {| url := "http://localhost:8000/api/v0/tree";
         body := {| text := "hello world." |};
         responseType := ArrayBufferResponse |} ].
Proof.
  cbv zeta.
  assert (Hin : In (generateControl shownState)
                  (controls asIs (render asIs shownState)))
    by (rewrite controls_render; simpl; auto 6).
  split; [exact Hin|]. split; [reflexivity|].
  exact (proj2 (proj2 (@generate_button_requests string asIs shownState
                         (generateControl shownState) sampleWorld
                         {| targetValue := "" |} Hin
                         (or_introl eq_refl)))).
Defined.

Lemma session_sentences_witness :
  (In " What?" (sentences (session asIs sampleSession)) \/
   (" What?" = selectedSentence (session asIs sampleSession) /\
    " What?" <> EmptyString)) /\
  clauseWithEnd " What?" /\
  splitIntoSentences " What?" = [" What?"].
Proof.
  assert (H : In " What?" (sentences (session asIs sampleSession)) \/
              (" What?" = selectedSentence (session asIs sampleSession) /\
               " What?" <> EmptyString))
    by (left; vm_compute; auto).
  split; [exact H|].
  exact (@session_sentences string asIs sampleSession " What?" H).
Defined.

Lemma select_then_generate_witness :
  let st := session asIs sampleSession in
  let c := radioControl (JsValue:=string) " What?" in
  let st' := final (run sampleWorld st
                      (controlListener c {| targetValue := "on" |})) in
  In c (controls asIs (render asIs st)) /\
  controlTag c = "input" /\
  In (selectedSentence st') (sentences st) /\
  requestsOf (trace (run sampleWorld st' (handleGenerateTree st'))) =
    [ {| url := "http://localhost:8000/api/v0/tree";
         body := {| text := " What?" |};
         responseType := ArrayBufferResponse |} ].
Proof.
  cbv zeta.
  assert (Hin : In (radioControl (JsValue:=string) " What?")
                  (controls asIs (render asIs (session asIs sampleSession))))
    by (rewrite session_sample, controls_render; simpl; auto 6).
  split; [exact Hin|]. split; [reflexivity|].
  exact (@select_then_generate string asIs sampleSession
           (radioControl " What?") sampleWorld sampleWorld
           {| targetValue := "on" |} Hin eq_refl).
Defined.

Lemma type_then_submit_witness :
  let e := {| targetValue := "Wait. What?" |} in
  let c := textControl (JsValue:=string) in
  let st' := final (run sampleWorld typedState (controlListener c e)) in
  In c (controls asIs (render asIs typedState)) /\
  controlTag c = "textarea" /\
  inputText st' = "Wait. What?" /\
  requestsOf (trace (run sampleWorld st' (handleSubmit st'))) =
    [ {| url := "http://localhost:8000/api/v0/translation";
         body := {| text := "Wait. What?" |};
         responseType := JsonResponse |} ].
Proof.
  cbv zeta.
  assert (Hin : In (textControl (JsValue:=string))
                  (controls asIs (render asIs typedState)))
    by (rewrite controls_render; simpl; auto 6).
  split; [exact Hin|]. split; [reflexivity|].
  destruct (@type_then_submit string asIs typedState textControl sampleWorld
              sampleWorld {| targetValue := "Wait. What?" |} Hin eq_refl)
    as [Hst Hreq].
  split; [now rewrite Hst | exact Hreq].
Defined.

Lemma submitted_results_shown_witness :
  settle sampleWorld (translationRequest (JsValue:=string) typedState) =
    Fulfilled {| data := sampleData |} /\
  map (textContent asIs)
    (elementsByTag "td"
       (render asIs (final (run sampleWorld typedState
                              (handleSubmit typedState))))) =
  [ "hello"; "1"; "INTJ"; "world"; "1"; "NOUN"; "Hallo"; "1"; "INTJ" ].
Proof.
  split; [reflexivity|].
  exact (@submitted_results_shown string asIs sampleWorld typedState
           typedState {| data := sampleData |} eq_refl).
Defined.

Lemma generated_tree_shown_witness :
  let blob := {| blobParts := [BufferPart sampleImage];
                 blobType := "image/png" |} in
  selectedSentence shownState <> EmptyString /\
  settle sampleWorld (treeRequest shownState) =
    Fulfilled {| data := sampleImage |} /\
  objectURL sampleWorld blob <> EmptyString /\
  map (fun i => propOf "src" (propsOf i))
    (elementsByTag "img"
       (render asIs (final (run sampleWorld shownState
                              (handleGenerateTree shownState))))) =
  [Some (PString "blob:http://localhost:3000/0")].
Proof.
  cbv zeta.
  assert (Hsel : selectedSentence shownState <> EmptyString) by discriminate.
  assert (Hurl : objectURL sampleWorld
                   {| blobParts := [BufferPart sampleImage];
                      blobType := "image/png" |} <> EmptyString)
    by discriminate.
  split; [exact Hsel|]. split; [reflexivity|]. split; [exact Hurl|].
  exact (@generated_tree_shown string asIs sampleWorld shownState shownState
           {| data := sampleImage |} Hsel eq_refl Hurl).
Defined.

Lemma splitIntoSentences_empty_iff_witness :
  "Wait. What?" = "Wait. W" ++ String "h" "at?" /\
  isSentenceEnd "h" = false /\
  exists front pre post back,
    splitIntoSentences "Wait. What?" =
      (front ++ (pre ++ String "h" post)%string :: back)%list /\
    "Wait. W" = takeLeading isSentenceEnd "Wait. What?" ++ join front ++ pre /\
    "at?" = post ++ join back.
Proof.
  split; [reflexivity|]. split; [reflexivity|].
  exact (proj2 (splitIntoSentences_empty_iff "Wait. What?")
           "Wait. W" "h"%char "at?" eq_refl eq_refl).
Defined.
